(** * Verification of the S3/SQS pipeline test harness

    Shallow embedding of [src/lambda_function.py] (module
    [LambdaFunction]) and of [src/test_infrastructure.py] (module
    [TestInfrastructure]), followed by their properties (modules
    [LambdaFunctionProofs] and [TestInfrastructureProofs]).

    The Python code talks to AWS through boto3 clients, reads the clock,
    sleeps and logs.  Those effects are made explicit: a computation takes
    the current clock value and returns an outcome (a value or a raised
    exception), the clock afterwards and the list of events it produced.
    The AWS services are an oracle [Env]: each API call is a function of the
    time at which the call starts and of its arguments, returning either a
    response or a [ClientError].  The clock counts whole time units (the
    seconds of [time.time()] and [time.sleep], without their fractions);
    only service calls and sleeps take time. *)

From stdpp Require Import base strings list pretty.
From Equations Require Import Equations.
From Equations.Prop Require Import Logic.
From Stdlib Require Import ZArith Lia.

Local Open Scope Z_scope.

(** ** Python-level helpers shared by both programs *)

(** The double quote character, and [json.dumps] on a string that has no
    character in need of escaping. *)
Definition dquote : string := String (Ascii.ascii_of_nat 34) EmptyString.

Definition json_dumps_str (s : string) : string := dquote +:+ s +:+ dquote.

(** [range(n)] for a Python int [n]: empty when [n <= 0]. *)
Definition range (n : Z) : list Z := map Z.of_nat (seq 0 (Z.to_nat n)).

Inductive Level := DEBUG | INFO | WARNING | ERROR.

(** * The compute function: [src/lambda_function.py] *)

Module LambdaFunction.

(** The event is what the invocation framework decoded from JSON. *)
#[warnings="-register-all"]
Inductive pyval :=
| PNone
| PBool (b : bool)
| PInt (n : Z)
| PFloat (repr : string)
| PStr (s : string)
| PList (items : list pyval)
| PDict (fields : list (string * pyval)).

(** The exceptions the handler can meet.  [what] says which operation a
    [TypeError] comes from; the interpreter's own message, which also names
    the type of the operand and differs between Python versions, is not
    reproduced, and no statement below reads it. *)
Inductive exn :=
| KeyError (key : string)
| TypeError (what : string).

Inductive LogArg :=
| AVal (v : pyval)
| AExn (e : exn).

Record LogRecord := { level : Level; template : string; args : list LogArg }.

Inductive outcome (A : Type) :=
| Ret (a : A)
| Raise (e : exn).
Arguments Ret {A} a.
Arguments Raise {A} e.

(** A computation: its outcome and the records it handed to the logger. *)
Definition L (A : Type) : Type := outcome A * list LogRecord.

Definition ret {A} (a : A) : L A := (Ret a, []).

Definition raise {A} (e : exn) : L A := (Raise e, []).

Definition bind {A B} (m : L A) (k : A -> L B) : L B :=
  match m with
  | (Ret a, l1) => let '(o, l2) := k a in (o, l1 ++ l2)
  | (Raise e, l1) => (Raise e, l1)
  end.

Declare Scope lam_scope.
Delimit Scope lam_scope with lam.
Notation "x <- m ;; k" := (bind m (fun x => k))
  (at level 100, m at next level, right associativity) : lam_scope.
Notation "m ;; k" := (bind m (fun _ => k))
  (at level 100, right associativity) : lam_scope.
Local Open Scope lam_scope.

Definition logger_info (template : string) (args : list LogArg) : L unit :=
  (Ret tt, [{| level := INFO; template := template; args := args |}]).

Definition logger_error (template : string) (args : list LogArg) : L unit :=
  (Ret tt, [{| level := ERROR; template := template; args := args |}]).

(** [try: m except Exception as e: h e]. *)
Definition try_Exception {A} (m : L A) (h : exn -> L A) : L A :=
  match m with
  | (Raise e, l1) => let '(o, l2) := h e in (o, l1 ++ l2)
  | r => r
  end.

(** *** Python operations on the event *)

(** A dict is the list of its items, in insertion order; its keys are
    distinct, and a lookup takes the binding of the key. *)
Fixpoint dict_get (fields : list (string * pyval)) (key : string) : option pyval :=
  match fields with
  | [] => None
  | (k, v) :: rest => if String.eqb k key then Some v else dict_get rest key
  end.

Definition dict_has (fields : list (string * pyval)) (key : string) : bool :=
  match dict_get fields key with
  | Some _ => true
  | None => false
  end.

Definition is_str (key : string) (v : pyval) : bool :=
  match v with
  | PStr s => String.eqb s key
  | _ => false
  end.

(** Whether [key] occurs in [s] as a substring. *)
Fixpoint substring_of (key s : string) : bool :=
  String.prefix key s
  || match s with
     | EmptyString => false
     | String _ rest => substring_of key rest
     end.

(** [key in v] for a string [key]. *)
Definition py_contains (key : string) (v : pyval) : L bool :=
  match v with
  | PDict fields => ret (dict_has fields key)
  | PList items => ret (existsb (is_str key) items)
  | PStr s => ret (substring_of key s)
  | _ => raise (TypeError "argument is not iterable")
  end.

(** [v[key]] for a string [key]. *)
Definition py_getitem (v : pyval) (key : string) : L pyval :=
  match v with
  | PDict fields =>
      match dict_get fields key with
      | Some x => ret x
      | None => raise (KeyError key)
      end
  | PList _ => raise (TypeError "list indices must be integers or slices, not str")
  | PStr _ => raise (TypeError "string indices must be integers")
  | _ => raise (TypeError "object is not subscriptable")
  end.

Fixpoint chars (s : string) : list pyval :=
  match s with
  | EmptyString => []
  | String c rest => PStr (String c EmptyString) :: chars rest
  end.

(** What [for x in v] goes through. *)
Definition py_iter (v : pyval) : L (list pyval) :=
  match v with
  | PList items => ret items
  | PDict fields => ret (map (fun kv => PStr kv.1) fields)
  | PStr s => ret (chars s)
  | _ => raise (TypeError "object is not iterable")
  end.

(** *** lambda_handler *)

Record Ack := { statusCode : Z; body : string }.

(** The body of [for record in event['Records']]. *)
Definition handle_record (record : pyval) : L unit :=
  is_s3 <- py_contains "s3" record ;;
  if is_s3 then
    s3 <- py_getitem record "s3" ;;
    b <- py_getitem s3 "bucket" ;;
    bucket <- py_getitem b "name" ;;
    s3' <- py_getitem record "s3" ;;
    o <- py_getitem s3' "object" ;;
    key <- py_getitem o "key" ;;
    logger_info "S3 object created in bucket {} with key {}" [AVal bucket; AVal key]
  else
    is_sqs <- py_contains "sqs" record ;;
    if is_sqs then
      msg <- py_getitem record "body" ;;
      logger_info "SQS message received: {}" [AVal msg]
    else ret tt.

Fixpoint for_each (records : list pyval) : L unit :=
  match records with
  | [] => ret tt
  | record :: rest => handle_record record ;; for_each rest
  end.

Definition lambda_handler (event context : pyval) : L Ack :=
  logger_info "Received event: {}" [AVal event] ;;
  try_Exception
    (has_records <- py_contains "Records" event ;;
     (if has_records then
        records <- py_getitem event "Records" ;;
        items <- py_iter records ;;
        for_each items
      else ret tt) ;;
     ret {| statusCode := 200;
            body := json_dumps_str "Successfully processed event" |})
    (fun e =>
       logger_error "Error processing event: {}" [AExn e] ;;
       raise e).

(** ** What the handler logs and returns *)

Definition received_line (event : pyval) : LogRecord :=
  {| level := INFO; template := "Received event: {}"; args := [AVal event] |}.

Definition error_line (e : exn) : LogRecord :=
  {| level := ERROR; template := "Error processing event: {}"; args := [AExn e] |}.

Definition acknowledgment : Ack :=
  {| statusCode := 200; body := json_dumps_str "Successfully processed event" |}.

(** The shapes of a record, in the words of the contract.  [field v k] is
    the value under key [k] when [v] is a dict that has it. *)
Definition field (v : pyval) (key : string) : option pyval :=
  match v with
  | PDict fields => dict_get fields key
  | _ => None
  end.

(** A storage-object creation: an ["s3"] entry with a bucket name and an
    object key. *)
Definition s3_shape (record : pyval) : option (pyval * pyval) :=
  s3 ← field record "s3";
  b ← field s3 "bucket";
  bucket ← field b "name";
  o ← field s3 "object";
  key ← field o "key";
  Some (bucket, key).

(** A queue message: no ["s3"] entry, an ["sqs"] entry and a ["body"]. *)
Definition sqs_shape (record : pyval) : option pyval :=
  match field record "s3" with
  | Some _ => None
  | None => _ ← field record "sqs"; field record "body"
  end.

Definition record_line (record : pyval) : option LogRecord :=
  match s3_shape record with
  | Some (bucket, key) =>
      Some {| level := INFO;
              template := "S3 object created in bucket {} with key {}";
              args := [AVal bucket; AVal key] |}
  | None =>
      match sqs_shape record with
      | Some msg =>
          Some {| level := INFO; template := "SQS message received: {}";
                  args := [AVal msg] |}
      | None => None
      end
  end.


(** The [try] block of the handler. *)
Definition process (event : pyval) : L Ack :=
  has_records <- py_contains "Records" event ;;
  (if has_records then
     records <- py_getitem event "Records" ;;
     items <- py_iter records ;;
     for_each items
   else ret tt) ;;
  ret acknowledgment.

(** An event that is a dict. *)
Definition is_dict (v : pyval) : bool :=
  match v with
  | PDict _ => true
  | _ => false
  end.

(** A record with neither an ["s3"] nor an ["sqs"] entry. *)
Definition unkeyed (record : pyval) : bool :=
  match record with
  | PDict fields => negb (dict_has fields "s3") && negb (dict_has fields "sqs")
  | _ => false
  end.

(** The records the services deliver: the record of a queue-triggered
    invocation and the record of an object-created notification. *)
Definition queue_record (id msg : string) : pyval :=
  PDict [("messageId", PStr id); ("body", PStr msg);
         ("eventSource", PStr "aws:sqs")].

Definition s3_record (bucket key : string) : pyval :=
  PDict [("eventSource", PStr "aws:s3");
         ("s3", PDict [("bucket", PDict [("name", PStr bucket)]);
                       ("object", PDict [("key", PStr key)])])].

End LambdaFunction.

(** * The test harness: [src/test_infrastructure.py] *)

Module TestInfrastructure.

(** *** Data exchanged with the services *)

(** A value produced by [json.loads]. *)
#[warnings="-register-all"]
Inductive json :=
| JNull
| JBool (b : bool)
| JNum (n : Z)
| JStr (s : string)
| JArr (l : list json)
| JObj (fields : list (string * json)).

(** The dict serialised into the invocation payload. *)
Record Payload := { test : string; timestamp : Z }.

Record InvokeResponse := { StatusCode : Z }.

Record LogStream := { logStreamName : string; lastEventTimestamp : Z }.

(** A key read with [.get] may be absent: [option]. *)
Record DescribeLogStreamsResponse := { logStreams : option (list LogStream) }.

Record OutputLogEvent := { ev_timestamp : Z; ev_message : string }.

Record GetLogEventsResponse := { events : option (list OutputLogEvent) }.

Record S3Object := { Key : string; Size : Z; LastModified : Z }.

Record ListObjectsV2Response :=
  { KeyCount : option Z; Contents : option (list S3Object) }.

Record Message := { MessageId : string; ReceiptHandle : string; Body : string }.

Record ReceiveMessageResponse := { Messages : option (list Message) }.

(** Exceptions the script can meet.  [ClientError] is the only one its
    [except] clauses name. *)
Inductive exn :=
| ClientError (code : string)
| JSONDecodeError
| KeyError (key : string).

(** What a boto3 call gives back: a response, or a raised [ClientError]
    carrying its error code.  [ClientError] is the fault the script provides
    for; exceptions of other classes that a client may raise are not
    modelled. *)
Inductive reply (A : Type) :=
| Ok (a : A)
| Fault (code : string).
Arguments Ok {A} a.
Arguments Fault {A} code.

(** *** The environment *)

(** Every API call is indexed by the clock value at which it starts.
    [latency t] is the time taken by a service call started at [t] and
    [oversleep t] the overrun of a sleep started at [t]; both are natural
    numbers, so time never runs backwards.  [json_loads] is Python's library
    parser, taken as a parameter: [None] stands for [JSONDecodeError]. *)
Record Env := {
  lambda_invoke : Z -> string -> string -> Payload -> reply InvokeResponse;
  describe_log_streams :
    Z -> string -> string -> bool -> Z -> reply DescribeLogStreamsResponse;
  get_log_events : Z -> string -> string -> Z -> reply GetLogEventsResponse;
  list_objects_v2 : Z -> string -> reply ListObjectsV2Response;
  receive_message : Z -> string -> Z -> Z -> reply ReceiveMessageResponse;
  change_message_visibility : Z -> string -> string -> Z -> reply unit;
  latency : Z -> nat;
  oversleep : Z -> nat;
  json_loads : string -> option json
}.

(** *** Events *)

Inductive LogArg :=
| AStr (s : string)
| AInt (n : Z)
| AExn (e : exn)
| AInvoke (r : InvokeResponse)
| AJson (j : json).

Inductive Event :=
| EvLog (lvl : Level) (template : string) (args : list LogArg)
| EvSleep (t : Z) (secs : Z)
| EvInvoke (t : Z) (FunctionName InvocationType : string) (p : Payload)
    (r : reply InvokeResponse)
| EvDescribeLogStreams (t : Z) (logGroupName orderBy : string)
    (descending : bool) (limit : Z) (r : reply DescribeLogStreamsResponse)
| EvGetLogEvents (t : Z) (logGroupName stream : string) (limit : Z)
    (r : reply GetLogEventsResponse)
| EvListObjects (t : Z) (Bucket : string) (r : reply ListObjectsV2Response)
| EvReceiveMessage (t : Z) (QueueUrl : string)
    (MaxNumberOfMessages WaitTimeSeconds : Z) (r : reply ReceiveMessageResponse)
| EvChangeVisibility (t : Z) (QueueUrl handle : string) (VisibilityTimeout : Z)
    (r : reply unit).

(** *** The monad: clock in; outcome, clock and events out *)

Inductive outcome (A : Type) :=
| Ret (a : A)
| Raise (e : exn).
Arguments Ret {A} a.
Arguments Raise {A} e.

Definition Res (A : Type) : Type := outcome A * Z * list Event.

Definition M (A : Type) : Type := Z -> Res A.

Definition ret {A} (a : A) : M A := fun t => (Ret a, t, []).

Definition raise {A} (e : exn) : M A := fun t => (Raise e, t, []).

(** Puts events in front of a result. *)
Definition prefix_events {A} (tr : list Event) (r : Res A) : Res A :=
  let '(o, t, tr') := r in (o, t, tr ++ tr').

Definition bind {A B} (m : M A) (k : A -> M B) : M B := fun t =>
  match m t with
  | (Ret a, t1, tr1) => prefix_events tr1 (k a t1)
  | (Raise e, t1, tr1) => (Raise e, t1, tr1)
  end.

Declare Scope prog_scope.
Delimit Scope prog_scope with prog.
Notation "x <- m ;; k" := (bind m (fun x => k))
  (at level 100, m at next level, right associativity) : prog_scope.
Notation "m ;; k" := (bind m (fun _ => k))
  (at level 100, right associativity) : prog_scope.
Local Open Scope prog_scope.

(** [try: m except ClientError as e: h e].  Every other exception goes
    through. *)
Definition try_ClientError {A} (m : M A) (h : string -> M A) : M A := fun t =>
  match m t with
  | (Raise (ClientError code), t1, tr1) => prefix_events tr1 (h code t1)
  | r => r
  end.

Definition outcome_of {A} (r : Res A) : outcome A := r.1.1.
Definition clock_of {A} (r : Res A) : Z := r.1.2.
Definition events_of {A} (r : Res A) : list Event := r.2.

(** *** Primitives *)

Definition time_time : M Z := fun t => (Ret t, t, []).

Definition log (lvl : Level) (template : string) (args : list LogArg) : M unit :=
  fun t => (Ret tt, t, [EvLog lvl template args]).

Section Program.

Context (env : Env).

(** [time.sleep(secs)]: at least [secs] pass. *)
Definition time_sleep (secs : Z) : M unit := fun t =>
  (Ret tt, t + secs + Z.of_nat (oversleep env t), [EvSleep t secs]).

(** A boto3 call: the reply is fixed by the environment at the start of the
    call, the clock moves by the call's latency, a [Fault] is raised as a
    [ClientError]. *)
Definition call {A} (r : Z -> reply A) (ev : Z -> reply A -> Event) : M A :=
  fun t =>
    let t' := t + Z.of_nat (latency env t) in
    match r t with
    | Ok a => (Ret a, t', [ev t (Ok a)])
    | Fault code => (Raise (ClientError code), t', [ev t (Fault code)])
    end.

Definition lambda_client_invoke (fn ty : string) (p : Payload) : M InvokeResponse :=
  call (fun t => lambda_invoke env t fn ty p) (fun t r => EvInvoke t fn ty p r).

Definition logs_client_describe_log_streams (g ob : string) (desc : bool) (lim : Z)
  : M DescribeLogStreamsResponse :=
  call (fun t => describe_log_streams env t g ob desc lim)
       (fun t r => EvDescribeLogStreams t g ob desc lim r).

Definition logs_client_get_log_events (g s : string) (lim : Z)
  : M GetLogEventsResponse :=
  call (fun t => get_log_events env t g s lim)
       (fun t r => EvGetLogEvents t g s lim r).

Definition s3_client_list_objects_v2 (b : string) : M ListObjectsV2Response :=
  call (fun t => list_objects_v2 env t b) (fun t r => EvListObjects t b r).

Definition sqs_client_receive_message (q : string) (maxn wait : Z)
  : M ReceiveMessageResponse :=
  call (fun t => receive_message env t q maxn wait)
       (fun t r => EvReceiveMessage t q maxn wait r).

Definition sqs_client_change_message_visibility (q h : string) (vt : Z) : M unit :=
  call (fun t => change_message_visibility env t q h vt)
       (fun t r => EvChangeVisibility t q h vt r).

(** [json.loads]. *)
Definition json_loads_py (s : string) : M json :=
  match json_loads env s with
  | Some j => ret j
  | None => raise JSONDecodeError
  end.

(** *** invoke_lambda *)

(** The body of the [for] loop returns [Some b] for [return b] and [None]
    when it falls through to the next iteration. *)
Fixpoint invoke_loop (function_name : string) (num_invocations : Z)
    (indices : list Z) : M bool :=
  match indices with
  | [] => ret true
  | i :: rest =>
      now <- time_time ;;
      let payload := {| test := "message-" +:+ pretty i; timestamp := now |} in
      r <- try_ClientError
             (response <- lambda_client_invoke function_name "Event" payload ;;
              (if (200 <=? StatusCode response) && (StatusCode response <? 300)
               then log INFO "Lambda invocation {}/{} successful"
                      [AInt (i + 1); AInt num_invocations]
               else log ERROR "Lambda invocation {}/{} failed: {}"
                      [AInt (i + 1); AInt num_invocations; AInvoke response]) ;;
              ret None)
             (fun e =>
                log ERROR "Error invoking Lambda: {}" [AExn (ClientError e)] ;;
                ret (Some false)) ;;
      match r with
      | Some b => ret b
      | None => time_sleep 1 ;; invoke_loop function_name num_invocations rest
      end
  end.

Definition invoke_lambda (function_name : string) (num_invocations : Z) : M bool :=
  log INFO "Invoking Lambda function {} {} times..."
    [AStr function_name; AInt num_invocations] ;;
  invoke_loop function_name num_invocations (range num_invocations).

(** *** check_cloudwatch_logs *)

(** Python truthiness of [d.get(k)] for a list-valued key. *)
Definition truthy {A} (v : option (list A)) : bool :=
  match v with
  | Some (_ :: _) => true
  | _ => false
  end.

Definition check_cloudwatch_logs (log_group_name : string) : M bool :=
  log INFO "Checking for logs in CloudWatch log group {}..." [AStr log_group_name] ;;
  try_ClientError
    (response <- logs_client_describe_log_streams
                   log_group_name "LastEventTime" true 5 ;;
     match logStreams response with
     | Some (s0 :: _) =>
         let stream_name := logStreamName s0 in
         log_events <- logs_client_get_log_events log_group_name stream_name 10 ;;
         match events log_events with
         | Some ((_ :: _) as evs) =>
             log INFO "Found {} log events in CloudWatch"
               [AInt (Z.of_nat (length evs))] ;;
             ret true
         | _ =>
             log ERROR "No log events found in the most recent log stream" [] ;;
             ret false
         end
     | _ =>
         log ERROR "No log streams found in CloudWatch log group" [] ;;
         ret false
     end)
    (fun e =>
       log ERROR "Error checking CloudWatch logs: {}" [AExn (ClientError e)] ;;
       ret false).

(** *** wait_for_s3_objects *)

(** One run of the [try] block inside the [while]: [Some v] for [return v],
    [None] when the block ends and the loop condition is tested again. *)
Definition poll_once (bucket_name : string) : M (option (list S3Object)) :=
  try_ClientError
    (response <- s3_client_list_objects_v2 bucket_name ;;
     if default 0 (KeyCount response) >? 0 then
       log INFO "Found {} objects in S3 bucket" [AInt (default 0 (KeyCount response))] ;;
       match Contents response with
       | Some cs => ret (Some cs)
       | None => raise (KeyError "Contents")
       end
     else
       log INFO "No objects found yet, waiting..." [] ;;
       time_sleep 10 ;;
       ret None)
    (fun e =>
       log ERROR "Error listing S3 objects: {}" [AExn (ClientError e)] ;;
       ret (Some [])).

(** [while time.time() < end_time: <try block>], then the lines after the
    loop.  [t] is the clock when the loop condition is evaluated.  The
    recursion is on the time left before [end_time]. *)
Equations? wait_loop (bucket_name : string) (end_time : Z) (t : Z)
  : Res (list S3Object) by wf (Z.to_nat (end_time - t)) lt :=
  wait_loop bucket_name end_time t with Z_lt_dec t end_time := {
    | left _ with inspect (poll_once bucket_name t) := {
        | exist _ (Ret (Some v), t', tr) _ => (Ret v, t', tr);
        | exist _ (Ret None, t', tr) _ =>
            prefix_events tr (wait_loop bucket_name end_time t');
        | exist _ (Raise e, t', tr) _ => (Raise e, t', tr) };
    | right _ =>
        (log ERROR "Timed out waiting for objects to appear in S3 bucket" [] ;;
         ret []) t }.
Proof.
  (* A poll that asks for another iteration has slept: the clock has moved
     by at least ten units. *)
  match goal with E : poll_once _ _ = _ |- _ => rename E into Hpoll end.
  assert (t + 10 <= t') as Hlater.
  { revert Hpoll.
    unfold poll_once, try_ClientError, bind, s3_client_list_objects_v2, call.
    destruct (list_objects_v2 env t bucket_name) as [resp|code]; cbn.
    - destruct (default 0 (KeyCount resp) >? 0); cbn.
      + destruct (Contents resp); cbn; intros [= ].
      + intros [= <- _]. lia.
    - intros [= ]. }
  lia.
Qed.

Definition wait_for_s3_objects (bucket_name : string) (wait_time : Z)
  : M (list S3Object) :=
  log INFO "Waiting up to {} seconds for objects to appear in S3 bucket {}..."
    [AInt wait_time; AStr bucket_name] ;;
  now <- time_time ;;
  let end_time := now + wait_time in
  wait_loop bucket_name end_time.

(** *** check_sqs_messages *)

(** [for message in messages: change_message_visibility(..., 0)]. *)
Fixpoint release_messages (queue_url : string) (messages : list Message) : M unit :=
  match messages with
  | [] => ret tt
  | message :: rest =>
      sqs_client_change_message_visibility queue_url (ReceiptHandle message) 0 ;;
      release_messages queue_url rest
  end.

Definition check_sqs_messages (queue_url : string) : M bool :=
  log INFO "Checking for messages in SQS queue {}..." [AStr queue_url] ;;
  try_ClientError
    (response <- sqs_client_receive_message queue_url 10 10 ;;
     let messages := default [] (Messages response) in
     match messages with
     | [] =>
         log WARNING "No messages found in SQS queue" [] ;;
         ret false
     | m0 :: _ =>
         log INFO "Found {} messages in SQS queue"
           [AInt (Z.of_nat (length messages))] ;;
         message_body <- json_loads_py (Body m0) ;;
         log INFO "Sample SQS message: {}" [AJson message_body] ;;
         release_messages queue_url messages ;;
         ret true
     end)
    (fun e =>
       log ERROR "Error checking SQS messages: {}" [AExn (ClientError e)] ;;
       ret false).

(** *** main *)

(** The parsed command line. *)
Record Args := {
  lambda_function : string;
  log_group : string;
  s3_bucket : string;
  sqs_queue_url : string;
  region : string;
  wait_time : Z
}.

(** Python truthiness of a list. *)
Definition nonempty {A} (l : list A) : bool :=
  match l with
  | [] => false
  | _ :: _ => true
  end.

Definition main (args : Args) : M Z :=
  let success := true in
  r1 <- invoke_lambda (lambda_function args) 5 ;;
  success <- (if negb r1
              then log ERROR "Failed to invoke Lambda function" [] ;; ret false
              else ret success) ;;
  log INFO "Waiting for logs to appear in CloudWatch..." [] ;;
  time_sleep 10 ;;
  r2 <- check_cloudwatch_logs (log_group args) ;;
  success <- (if negb r2
              then log ERROR "Failed to find logs in CloudWatch" [] ;; ret false
              else ret success) ;;
  s3_objects <- wait_for_s3_objects (s3_bucket args) (wait_time args) ;;
  success <- (if negb (nonempty s3_objects)
              then log ERROR "Failed to find objects in S3 bucket" [] ;; ret false
              else ret success) ;;
  r4 <- check_sqs_messages (sqs_queue_url args) ;;
  (if negb r4
   then log WARNING
          "No SQS messages found - this might be expected if delivery to S3 is delayed" []
   else ret tt) ;;
  if success
  then log INFO "All tests completed successfully!" [] ;; ret 0
  else log ERROR "Some tests failed. Check the logs for details." [] ;; ret 1.

End Program.

(** ** The terms of the statements *)

(** ** Reading a trace *)

(** The submissions a trace holds: start time and payload of every
    [lambda_client.invoke]. *)
Definition submission (e : Event) : option (Z * Payload) :=
  match e with
  | EvInvoke t _ _ p _ => Some (t, p)
  | _ => None
  end.

Definition submissions (tr : list Event) : list (Z * Payload) := omap submission tr.

(** The acknowledgments the submissions of a trace received. *)
Definition acknowledgment (e : Event) : option (reply InvokeResponse) :=
  match e with
  | EvInvoke _ _ _ _ r => Some r
  | _ => None
  end.

Definition acknowledgments (tr : list Event) : list (reply InvokeResponse) :=
  omap acknowledgment tr.

Definition is_2xx (r : reply InvokeResponse) : bool :=
  match r with
  | Ok resp => (200 <=? StatusCode resp) && (StatusCode resp <? 300)
  | Fault _ => false
  end.

(** The polls of the bucket: start time and reply of every
    [list_objects_v2]. *)
Definition poll (e : Event) : option (Z * reply ListObjectsV2Response) :=
  match e with
  | EvListObjects t _ r => Some (t, r)
  | _ => None
  end.

Definition polls (tr : list Event) : list (Z * reply ListObjectsV2Response) :=
  omap poll tr.

(** The visibility changes: receipt handle, timeout and reply of every
    [change_message_visibility]. *)
Definition visibility_change (e : Event) : option (string * Z * reply unit) :=
  match e with
  | EvChangeVisibility _ _ h vt r => Some (h, vt, r)
  | _ => None
  end.

Definition visibility_changes (tr : list Event) : list (string * Z * reply unit) :=
  omap visibility_change tr.

(** The four stage functions, recognised by the line each one logs on
    entry. *)
Inductive Stage := StageInvoke | StageLogs | StageS3 | StageSqs.

Definition stage_entry (e : Event) : option Stage :=
  match e with
  | EvLog INFO template _ =>
      if String.eqb template "Invoking Lambda function {} {} times..."
      then Some StageInvoke
      else if String.eqb template "Checking for logs in CloudWatch log group {}..."
      then Some StageLogs
      else if String.eqb template
                "Waiting up to {} seconds for objects to appear in S3 bucket {}..."
      then Some StageS3
      else if String.eqb template "Checking for messages in SQS queue {}..."
      then Some StageSqs
      else None
  | _ => None
  end.

Definition stage_entries (tr : list Event) : list Stage := omap stage_entry tr.

(** Times that are at least [d] apart, each from the next. *)
Fixpoint spaced (d : Z) (ts : list Z) : Prop :=
  match ts with
  | a :: (b :: _) as rest => a + d <= b /\ spaced d rest
  | _ => True
  end.

(** The tag of submission [i]. *)
Definition tag (i : Z) : string := "message-" +:+ pretty i.

(** *** The Trigger Generator *)

Section TriggerTerms.

Context (env : Env) (function_name : string).

(** The payload of submission [i] captured at time [t], and the line logged
    for its acknowledgment. *)
Definition payload_of (i t : Z) : Payload :=
  {| test := "message-" +:+ pretty i; timestamp := t |}.

Definition ack_line (i n : Z) (resp : InvokeResponse) : Event :=
  if (200 <=? StatusCode resp) && (StatusCode resp <? 300)
  then EvLog INFO "Lambda invocation {}/{} successful" [AInt (i + 1); AInt n]
  else EvLog ERROR "Lambda invocation {}/{} failed: {}"
         [AInt (i + 1); AInt n; AInvoke resp].

(** A submission that was answered, with whatever status code, rather
    than refused with a [ClientError]. *)
Definition answered (r : reply InvokeResponse) : bool :=
  match r with
  | Ok _ => true
  | Fault _ => false
  end.

(** No submission raises. *)
Definition fault_free : Prop :=
  forall t p, exists resp, lambda_invoke env t function_name "Event" p = Ok resp.

End TriggerTerms.

(** *** The Log Checker *)

Section LogTerms.

Context (env : Env) (log_group_name : string).

(** What the two calls answer: the stream listing asked at [t0], and the
    window of stream [s] asked once that first call has returned. *)
Definition streams_reply (t0 : Z) : reply DescribeLogStreamsResponse :=
  describe_log_streams env t0 log_group_name "LastEventTime" true 5.

Definition window_reply (t0 : Z) (s : LogStream) : reply GetLogEventsResponse :=
  get_log_events env (t0 + Z.of_nat (latency env t0)) log_group_name
    (logStreamName s) 10.

(** The verdict in the words of the contract: a stream exists and its
    window holds an event. *)
Definition logs_observed (t0 : Z) : bool :=
  match streams_reply t0 with
  | Ok resp =>
      match logStreams resp with
      | Some (s :: _) =>
          match window_reply t0 s with
          | Ok w => truthy (events w)
          | Fault _ => false
          end
      | _ => false
      end
  | Fault _ => false
  end.

End LogTerms.

(** *** The Object-Store Watcher *)

Section WatcherTerms.

Context (env : Env) (bucket_name : string).

Definition timeout_line : Event :=
  EvLog ERROR "Timed out waiting for objects to appear in S3 bucket" [].

(** What the bucket answers to a listing asked at time [u]. *)
Definition listing_reply (u : Z) : reply ListObjectsV2Response :=
  list_objects_v2 env u bucket_name.

Definition key_count (resp : ListObjectsV2Response) : Z := default 0 (KeyCount resp).

(** The three things a poll can observe. *)
Definition observes_objects (rp : reply ListObjectsV2Response) : bool :=
  match rp with
  | Ok resp => 0 <? key_count resp
  | Fault _ => false
  end.

Definition observes_nothing (rp : reply ListObjectsV2Response) : bool :=
  match rp with
  | Ok resp => key_count resp <=? 0
  | Fault _ => false
  end.

(** The result of a poll that finds objects: the [Contents] of the
    response; [response['Contents']] raises [KeyError] when the key is
    absent. *)
Definition found_outcome (resp : ListObjectsV2Response) : outcome (list S3Object) :=
  match Contents resp with
  | Some cs => Ret cs
  | None => Raise (KeyError "Contents")
  end.

Definition found_events (t : Z) (resp : ListObjectsV2Response) : list Event :=
  [EvListObjects t bucket_name (Ok resp);
   EvLog INFO "Found {} objects in S3 bucket" [AInt (key_count resp)]].

Definition empty_events (t : Z) (resp : ListObjectsV2Response) : list Event :=
  [EvListObjects t bucket_name (Ok resp);
   EvLog INFO "No objects found yet, waiting..." [];
   EvSleep (t + Z.of_nat (latency env t)) 10].

Definition fault_events (t : Z) (code : string) : list Event :=
  [EvListObjects t bucket_name (Fault code);
   EvLog ERROR "Error listing S3 objects: {}" [AExn (ClientError code)]].

(** The clock after a poll that found nothing and slept. *)
Definition next_poll (t : Z) : Z :=
  t + Z.of_nat (latency env t) + 10
  + Z.of_nat (oversleep env (t + Z.of_nat (latency env t))).

(** The runs of the loop, as a relation between the clock at the loop test
    and the result: the deadline has passed; or the poll finds objects; or it
    faults; or it finds nothing, sleeps and the loop runs again. *)
Inductive watch (end_time : Z) : Z -> Res (list S3Object) -> Prop :=
| watch_timeout t :
    end_time <= t ->
    watch end_time t (Ret [], t, [timeout_line])
| watch_found t resp :
    t < end_time -> listing_reply t = Ok resp -> 0 < key_count resp ->
    watch end_time t
      (found_outcome resp, t + Z.of_nat (latency env t), found_events t resp)
| watch_fault t code :
    t < end_time -> listing_reply t = Fault code ->
    watch end_time t (Ret [], t + Z.of_nat (latency env t), fault_events t code)
| watch_again t resp r :
    t < end_time -> listing_reply t = Ok resp -> key_count resp <= 0 ->
    watch end_time (next_poll t) r ->
    watch end_time t (prefix_events (empty_events t resp) r).

Definition entry_line (wait_time : Z) : Event :=
  EvLog INFO "Waiting up to {} seconds for objects to appear in S3 bucket {}..."
    [AInt wait_time; AStr bucket_name].

(** A clock whose service calls take at most [L] and whose sleeps overrun
    by at most [S].  With [L = S = 0] a call takes no time and a sleep lasts
    exactly as long as asked, so that consecutive polls are one poll
    interval, ten units, apart. *)
Definition bounded_clock (L S : nat) : Prop :=
  (forall t, (latency env t <= L)%nat) /\ (forall t, (oversleep env t <= S)%nat).

End WatcherTerms.

(** *** The Queue Checker *)

Section QueueTerms.

Context (env : Env) (queue_url : string).

Definition receive_reply (t0 : Z) : reply ReceiveMessageResponse :=
  receive_message env t0 queue_url 10 10.

(** The visibility reset asked for one message, and the resets of a trace
    that the queue acknowledged. *)
Definition reset_of (m : Message) : string * Z := (ReceiptHandle m, 0).

Definition acknowledged (c : string * Z * reply unit) : option (string * Z) :=
  match c.2 with
  | Ok _ => Some c.1
  | Fault _ => None
  end.

Definition resets (tr : list Event) : list (string * Z) :=
  omap acknowledged (visibility_changes tr).

(** No visibility call on this queue raises. *)
Definition releases_succeed : Prop :=
  forall u h, change_message_visibility env u queue_url h 0 = Ok tt.

End QueueTerms.

(** *** The orchestrator *)

Section OrchestratorTerms.

Context (env : Env) (args : Args).

(** The verdict, from the three results that count. *)
Definition exit_code (trigger logs : bool) (objects : list S3Object) : Z :=
  if trigger && logs && nonempty objects then 0 else 1.

(** The lines [main] logs between and after the stages. *)
Definition trigger_line (b : bool) : list Event :=
  if b then [] else [EvLog ERROR "Failed to invoke Lambda function" []].

Definition logs_line (b : bool) : list Event :=
  if b then [] else [EvLog ERROR "Failed to find logs in CloudWatch" []].

Definition objects_line (objects : list S3Object) : list Event :=
  if nonempty objects then []
  else [EvLog ERROR "Failed to find objects in S3 bucket" []].

Definition queue_line (b : bool) : list Event :=
  if b then []
  else [EvLog WARNING
          "No SQS messages found - this might be expected if delivery to S3 is delayed"
          []].

Definition summary_line (code : Z) : Event :=
  if code =? 0
  then EvLog INFO "All tests completed successfully!" []
  else EvLog ERROR "Some tests failed. Check the logs for details." [].

(** The clock when the log check starts: the settle delay after the
    trigger stage ended at [t1]. *)
Definition settled (t1 : Z) : Z := t1 + 10 + Z.of_nat (oversleep env t1).

End OrchestratorTerms.

(** *** Further terms *)

(** What a run did besides logging: its service calls and sleeps, in
    order. *)
Definition is_log (e : Event) : bool :=
  match e with
  | EvLog _ _ _ => true
  | _ => false
  end.

Definition actions (tr : list Event) : list Event :=
  filter (fun e => negb (is_log e)) tr.

(** The messages a receive at [t0] hands to the checker. *)
Definition received (env : Env) (queue_url : string) (t0 : Z) : list Message :=
  match receive_reply env queue_url t0 with
  | Ok resp => default [] (Messages resp)
  | Fault _ => []
  end.

(** [sys.exit(main())]: the exit status of the process is the value [main]
    returns; when an exception leaves [main] the interpreter prints the
    traceback and exits with status 1. *)
Definition exit_status (env : Env) (args : Args) (t0 : Z) : Z :=
  match outcome_of (main env args t0) with
  | Ret code => code
  | Raise _ => 1
  end.

(** The visibility call that releases message [m], acknowledged. *)
Definition released (m : Message) : string * Z * reply unit :=
  (ReceiptHandle m, 0, Ok tt).

(** *** Scenarios *)

(** A stand-in for [json.loads] on the bodies used below: it accepts five
    JSON documents and rejects every other string, among them
    ["not json"], which Python's parser rejects too. *)
Definition json_loads_literals (s : string) : option json :=
  if String.eqb s "{}" then Some (JObj [])
  else if String.eqb s "[]" then Some (JArr [])
  else if String.eqb s "null" then Some JNull
  else if String.eqb s "true" then Some (JBool true)
  else if String.eqb s "false" then Some (JBool false)
  else None.

Definition delivered : S3Object :=
  {| Key := "logs/2024/part-0000"; Size := 512; LastModified := 185 |}.

Definition notice (id h : string) (b : string) : Message :=
  {| MessageId := id; ReceiptHandle := h; Body := b |}.

(** Every service answers; submissions are accepted with 202; the bucket is
    empty before time 185 and holds one object from then on; the queue
    holds two messages with JSON bodies; calls are instantaneous and sleeps
    exact. *)
Definition healthy : Env := {|
  lambda_invoke := fun _ _ _ _ => Ok {| StatusCode := 202 |};
  describe_log_streams := fun _ _ _ _ _ =>
    Ok {| logStreams :=
            Some [{| logStreamName := "2024/[$LATEST]a1"; lastEventTimestamp := 4 |}] |};
  get_log_events := fun _ _ _ _ =>
    Ok {| events := Some [{| ev_timestamp := 1; ev_message := "Received event" |}] |};
  list_objects_v2 := fun t _ =>
    if t <? 185 then Ok {| KeyCount := Some 0; Contents := None |}
    else Ok {| KeyCount := Some 1; Contents := Some [delivered] |};
  receive_message := fun _ _ _ _ =>
    Ok {| Messages := Some [notice "1" "h1" "{}"; notice "2" "h2" "{}"] |};
  change_message_visibility := fun _ _ _ _ => Ok tt;
  latency := fun _ => 0%nat;
  oversleep := fun _ => 0%nat;
  json_loads := json_loads_literals
|}.

(** As [healthy], but every submission is answered 500, without an
    exception. *)
Definition rejecting : Env := {|
  lambda_invoke := fun _ _ _ _ => Ok {| StatusCode := 500 |};
  describe_log_streams := describe_log_streams healthy;
  get_log_events := get_log_events healthy;
  list_objects_v2 := list_objects_v2 healthy;
  receive_message := receive_message healthy;
  change_message_visibility := change_message_visibility healthy;
  latency := latency healthy;
  oversleep := oversleep healthy;
  json_loads := json_loads healthy
|}.

(** As [healthy], but the bodies of the two queued messages are plain
    text. *)
Definition unparsable : Env := {|
  lambda_invoke := lambda_invoke healthy;
  describe_log_streams := describe_log_streams healthy;
  get_log_events := get_log_events healthy;
  list_objects_v2 := list_objects_v2 healthy;
  receive_message := fun _ _ _ _ =>
    Ok {| Messages := Some [notice "1" "h1" "not json"; notice "2" "h2" "not json"] |};
  change_message_visibility := change_message_visibility healthy;
  latency := latency healthy;
  oversleep := oversleep healthy;
  json_loads := json_loads healthy
|}.

(** As [healthy], but the bucket stays empty and the third listing, at time
    20 or later, faults. *)
Definition throttled : Env := {|
  lambda_invoke := lambda_invoke healthy;
  describe_log_streams := describe_log_streams healthy;
  get_log_events := get_log_events healthy;
  list_objects_v2 := fun t _ =>
    if t <? 20 then Ok {| KeyCount := Some 0; Contents := None |}
    else Fault "SlowDown";
  receive_message := receive_message healthy;
  change_message_visibility := change_message_visibility healthy;
  latency := latency healthy;
  oversleep := oversleep healthy;
  json_loads := json_loads healthy
|}.

(** A scenario for each combination of stage results: the trigger is
    refused with a [ClientError] unless [trigger]; the log group has no
    stream unless [logs]; the bucket is empty unless [objects]; the queue is
    empty unless [queue]. *)
Definition staged (trigger logs objects queue : bool) : Env := {|
  lambda_invoke := fun t fn ty p =>
    if trigger then lambda_invoke healthy t fn ty p else Fault "AccessDenied";
  describe_log_streams := fun t g ob d l =>
    if logs then describe_log_streams healthy t g ob d l
    else Ok {| logStreams := Some [] |};
  get_log_events := get_log_events healthy;
  list_objects_v2 := fun t b =>
    if objects then Ok {| KeyCount := Some 1; Contents := Some [delivered] |}
    else Ok {| KeyCount := Some 0; Contents := None |};
  receive_message := fun t q m w =>
    if queue then receive_message healthy t q m w else Ok {| Messages := None |};
  change_message_visibility := change_message_visibility healthy;
  latency := latency healthy;
  oversleep := oversleep healthy;
  json_loads := json_loads healthy
|}.

Definition cli (wait : Z) : Args := {|
  lambda_function := "log-generator";
  log_group := "/aws/lambda/log-generator";
  s3_bucket := "log-archive";
  sqs_queue_url := "https://sqs.ap-northeast-1.amazonaws.com/1/s3-events";
  region := "ap-northeast-1";
  wait_time := wait
|}.

(** As [healthy], but the bucket answers with a key count and no
    [Contents]. *)
Definition miscounting : Env := {|
  lambda_invoke := lambda_invoke healthy;
  describe_log_streams := describe_log_streams healthy;
  get_log_events := get_log_events healthy;
  list_objects_v2 := fun _ _ => Ok {| KeyCount := Some 1; Contents := None |};
  receive_message := receive_message healthy;
  change_message_visibility := change_message_visibility healthy;
  latency := latency healthy;
  oversleep := oversleep healthy;
  json_loads := json_loads healthy
|}.

(** As [healthy], but the submission tagged ["message-2"] is refused, the
    bucket answers without a key count, the queue holds three messages and
    the visibility of the one with handle ["h2"] cannot be changed. *)
Definition grudging : Env := {|
  lambda_invoke := fun _ _ _ p =>
    if String.eqb (test p) "message-2" then Fault "TooManyRequestsException"
    else Ok {| StatusCode := 202 |};
  describe_log_streams := describe_log_streams healthy;
  get_log_events := get_log_events healthy;
  list_objects_v2 := fun _ _ => Ok {| KeyCount := None; Contents := Some [delivered] |};
  receive_message := fun _ _ _ _ =>
    Ok {| Messages :=
            Some [notice "1" "h1" "{}"; notice "2" "h2" "{}"; notice "3" "h3" "{}"] |};
  change_message_visibility := fun _ _ h _ =>
    if String.eqb h "h2" then Fault "ReceiptHandleIsInvalid" else Ok tt;
  latency := latency healthy;
  oversleep := oversleep healthy;
  json_loads := json_loads healthy
|}.

(** As [healthy], but every service call takes three time units and the
    bucket holds its object from time 1 on. *)
Definition sluggish : Env := {|
  lambda_invoke := lambda_invoke healthy;
  describe_log_streams := describe_log_streams healthy;
  get_log_events := get_log_events healthy;
  list_objects_v2 := fun t _ =>
    if t <? 1 then Ok {| KeyCount := Some 0; Contents := None |}
    else Ok {| KeyCount := Some 1; Contents := Some [delivered] |};
  receive_message := receive_message healthy;
  change_message_visibility := change_message_visibility healthy;
  latency := fun _ => 3%nat;
  oversleep := oversleep healthy;
  json_loads := json_loads healthy
|}.

(** Every service call is refused with a [ClientError]. *)
Definition failing : Env := {|
  lambda_invoke := fun _ _ _ _ => Fault "AccessDenied";
  describe_log_streams := fun _ _ _ _ _ => Fault "ResourceNotFoundException";
  get_log_events := fun _ _ _ _ => Fault "ResourceNotFoundException";
  list_objects_v2 := fun _ _ => Fault "NoSuchBucket";
  receive_message := fun _ _ _ _ => Fault "QueueDoesNotExist";
  change_message_visibility := fun _ _ _ _ => Fault "QueueDoesNotExist";
  latency := latency healthy;
  oversleep := oversleep healthy;
  json_loads := json_loads healthy
|}.

End TestInfrastructure.

(** * Properties of the compute function *)

Module LambdaFunctionProofs.

Import LambdaFunction.
Local Open Scope lam_scope.

(** A record that is handled without an exception has logged the line of
    its shape, if it has one; a record that raises has logged nothing. *)
Lemma handle_record_logs (record : pyval) :
  match handle_record record with
  | (Ret _, lines) => lines = option_list (record_line record)
  | (Raise _, lines) => lines = []
  end.
Proof.
  destruct record as [| | | |s|items|fields]; try reflexivity.
  - (* a string *)
    unfold handle_record, record_line, s3_shape, sqs_shape. cbn.
    destruct (substring_of "s3" s); [reflexivity|]. cbn.
    destruct (substring_of "sqs" s); reflexivity.
  - (* a list *)
    unfold handle_record, record_line, s3_shape, sqs_shape. cbn.
    destruct (existsb (is_str "s3") items); [reflexivity|]. cbn.
    destruct (existsb (is_str "sqs") items); reflexivity.
  - (* a dict *)
    unfold handle_record, py_contains, dict_has, record_line, s3_shape, sqs_shape.
    cbn [field mbind option_bind py_getitem].
    destruct (dict_get fields "s3") as [s3|]; cbn.
    + destruct s3 as [| | | | | |f3]; cbn; try reflexivity.
      destruct (dict_get f3 "bucket") as [b|]; cbn; [|reflexivity].
      destruct b as [| | | | | |fb]; cbn; try reflexivity.
      destruct (dict_get fb "name") as [bucket|]; cbn; [|reflexivity].
      destruct (dict_get f3 "object") as [o|]; cbn; [|reflexivity].
      destruct o as [| | | | | |fo]; cbn; try reflexivity.
      destruct (dict_get fo "key") as [key|]; reflexivity.
    + destruct (dict_get fields "sqs") as [q|]; cbn; [|reflexivity].
      destruct (dict_get fields "body") as [msg|]; reflexivity.
Qed.


Lemma lambda_handler_process (event context : pyval) :
  lambda_handler event context =
  match process event with
  | (Ret a, lines) => (Ret a, received_line event :: lines)
  | (Raise e, lines) => (Raise e, received_line event :: lines ++ [error_line e])
  end.
Proof.
  unfold lambda_handler, process. fold acknowledgment.
  destruct (bind (py_contains "Records" event) _) as [[a|e] lines]; cbn;
    rewrite ?app_nil_r; reflexivity.
Qed.



(** An S3 notification and a record without a shape: one line is logged
    for the first, none for the second. *)
Example handler_on_notification :
  let record :=
    PDict [("eventSource", PStr "aws:s3");
           ("s3", PDict [("bucket", PDict [("name", PStr "log-archive")]);
                         ("object", PDict [("key", PStr "logs/part-0000")])])] in
  let event :=
    PDict [("Records", PList [record; PDict [("eventSource", PStr "aws:sqs")]])] in
  lambda_handler event PNone
  = (Ret acknowledgment,
     [received_line event;
      {| level := INFO; template := "S3 object created in bucket {} with key {}";
         args := [AVal (PStr "log-archive"); AVal (PStr "logs/part-0000")] |}]).
Proof. reflexivity. Qed.

(** A record with an ["s3"] entry and no bucket: the [KeyError] is logged
    and raised. *)
Example handler_on_malformed_record :
  let event := PDict [("Records", PList [PDict [("s3", PDict [])]])] in
  lambda_handler event PNone
  = (Raise (KeyError "bucket"),
     [received_line event; error_line (KeyError "bucket")]).
Proof. reflexivity. Qed.

(** ** Further properties of the handler *)

(** The handler on a dict whose ["Records"] entry is a list. *)
Lemma lambda_handler_on_records fields records (context : pyval) :
  dict_get fields "Records" = Some (PList records) ->
  lambda_handler (PDict fields) context =
  match for_each records with
  | (Ret _, lines) =>
      (Ret acknowledgment, received_line (PDict fields) :: lines)
  | (Raise e, lines) =>
      (Raise e, received_line (PDict fields) :: lines ++ [error_line e])
  end.
Proof.
  intros Hrec. rewrite lambda_handler_process.
  unfold process, py_contains, dict_has. cbn [py_getitem]. rewrite Hrec. cbn.
  destruct (for_each records) as [[[]|e] lines]; cbn; rewrite ?app_nil_r; reflexivity.
Qed.

(** X1.  An event that is a dict without a ["Records"] entry, such as the
    payload the test harness submits, is acknowledged with status 200 and
    only the line for the event itself is logged. *)
Theorem lambda_handler_without_records fields (context : pyval) :
  dict_get fields "Records" = None ->
  lambda_handler (PDict fields) context
  = (Ret acknowledgment, [received_line (PDict fields)]).
Proof.
  intros Hnone. rewrite lambda_handler_process.
  unfold process, py_contains, dict_has. rewrite Hnone. reflexivity.
Qed.

Lemma lambda_handler_without_records_payload :
  lambda_handler
    (PDict [("test", PStr "message-0"); ("timestamp", PFloat "1730000000.5")]) PNone
  = (Ret acknowledgment,
     [received_line
        (PDict [("test", PStr "message-0"); ("timestamp", PFloat "1730000000.5")])]).
Proof.
  apply (lambda_handler_without_records
           [("test", PStr "message-0"); ("timestamp", PFloat "1730000000.5")] PNone).
  reflexivity.
Defined.

(** X2.  An event that is not a dict never has records processed: the
    handler either acknowledges it, having logged the line for the event
    only, or raises a [TypeError] that it has logged.  It acknowledges exactly
    when the membership test ['Records' in event] is false, which takes a
    string or a list; on [None], a number or a boolean the test itself
    raises. *)
Theorem lambda_handler_non_dict_event (event context : pyval) :
  is_dict event = false ->
  let r := lambda_handler event context in
  (r = (Ret acknowledgment, [received_line event])
   \/ exists what,
        r = (Raise (TypeError what),
             [received_line event; error_line (TypeError what)]))
  /\ (r.1 = Ret acknowledgment <-> py_contains "Records" event = (Ret false, [])).
Proof.
  intros Hnd. cbv zeta. rewrite lambda_handler_process. unfold process.
  destruct event as [| | | |s|items|fields]; try discriminate; cbn.
  1-4: split; [right; eexists; reflexivity|split; discriminate].
  - destruct (substring_of "Records" s); cbn.
    + split; [right; eexists; reflexivity|split; discriminate].
    + split; [left; reflexivity|split; reflexivity].
  - destruct (existsb (is_str "Records") items); cbn.
    + split; [right; eexists; reflexivity|split; discriminate].
    + split; [left; reflexivity|split; reflexivity].
Qed.

Lemma lambda_handler_non_dict_event_string :
  (lambda_handler (PStr "ping") PNone
   = (Ret acknowledgment, [received_line (PStr "ping")])
   \/ exists what,
        lambda_handler (PStr "ping") PNone
        = (Raise (TypeError what),
           [received_line (PStr "ping"); error_line (TypeError what)]))
  /\ ((lambda_handler (PStr "ping") PNone).1 = Ret acknowledgment
      <-> py_contains "Records" (PStr "ping") = (Ret false, [])).
Proof.
  apply (lambda_handler_non_dict_event (PStr "ping") PNone). reflexivity.
Defined.

Lemma handle_record_unkeyed record :
  unkeyed record = true -> handle_record record = (Ret tt, []).
Proof.
  destruct record as [| | | | | |fields]; try discriminate.
  unfold unkeyed, handle_record, py_contains.
  destruct (dict_has fields "s3"); [discriminate|].
  destruct (dict_has fields "sqs"); [discriminate|]. reflexivity.
Qed.

Lemma for_each_unkeyed records :
  forallb unkeyed records = true -> for_each records = (Ret tt, []).
Proof.
  induction records as [|record rest IH]; [reflexivity|].
  cbn [forallb for_each]. intros [Hr Hrest]%andb_prop.
  rewrite (handle_record_unkeyed record Hr). cbn. rewrite (IH Hrest). reflexivity.
Qed.

(** X3.  Records that are dicts with neither an ["s3"] nor an ["sqs"] entry
    are passed over in silence, whatever else they hold: when every record
    of the event is one, the handler acknowledges the event and logs the
    line for the event only.  The records of a queue-triggered invocation,
    which carry ["body"] and ["eventSource"] and no ["sqs"] entry, are of
    this kind. *)
Theorem lambda_handler_passes_over_unkeyed fields records (context : pyval) :
  dict_get fields "Records" = Some (PList records) ->
  forallb unkeyed records = true ->
  lambda_handler (PDict fields) context
  = (Ret acknowledgment, [received_line (PDict fields)]).
Proof.
  intros Hrec Hall. rewrite (lambda_handler_on_records fields records context Hrec).
  rewrite (for_each_unkeyed records Hall). reflexivity.
Qed.

Lemma lambda_handler_passes_over_queue_records :
  let records := [queue_record "1" "hello"; queue_record "2" "world"] in
  lambda_handler (PDict [("Records", PList records)]) PNone
  = (Ret acknowledgment, [received_line (PDict [("Records", PList records)])]).
Proof.
  apply (lambda_handler_passes_over_unkeyed
           [("Records", PList [queue_record "1" "hello"; queue_record "2" "world"])]
           [queue_record "1" "hello"; queue_record "2" "world"] PNone);
    reflexivity.
Defined.

Lemma for_each_stops good bad rest e :
  Forall (fun r => (handle_record r).1 = Ret tt) good ->
  (handle_record bad).1 = Raise e ->
  for_each (good ++ bad :: rest) = (Raise e, omap record_line good).
Proof.
  intros Hgood Hbad. induction Hgood as [|record good Hr _ IH].
  - cbn [app for_each]. pose proof (handle_record_logs bad) as Hl.
    destruct (handle_record bad) as [[[]|e'] lines]; [discriminate|].
    cbn in Hbad. injection Hbad as ->. subst lines. reflexivity.
  - cbn [app for_each]. pose proof (handle_record_logs record) as Hl.
    destruct (handle_record record) as [[[]|e'] lines]; [|discriminate].
    subst lines. unfold bind at 1. rewrite IH.
    cbn [omap list_omap]. destruct (record_line record); reflexivity.
Qed.

(** X4.  Processing stops at the first record that raises: the lines of the
    records before it have been logged, the error is logged after them, the
    exception is raised, and the records after it are never looked at. *)
Theorem lambda_handler_stops_at_bad_record fields good bad rest e
    (context : pyval) :
  dict_get fields "Records" = Some (PList (good ++ bad :: rest)) ->
  Forall (fun r => (handle_record r).1 = Ret tt) good ->
  (handle_record bad).1 = Raise e ->
  lambda_handler (PDict fields) context
  = (Raise e,
     received_line (PDict fields) :: omap record_line good ++ [error_line e]).
Proof.
  intros Hrec Hgood Hbad.
  rewrite (lambda_handler_on_records fields _ context Hrec).
  rewrite (for_each_stops good bad rest e Hgood Hbad). reflexivity.
Qed.

Lemma lambda_handler_stops_at_bad_record_bucket :
  let good := [s3_record "log-archive" "logs/part-0000"] in
  let bad := PDict [("s3", PDict [])] in
  let rest := [s3_record "log-archive" "logs/part-0001"] in
  let event := PDict [("Records", PList (good ++ bad :: rest))] in
  lambda_handler event PNone
  = (Raise (KeyError "bucket"),
     received_line event :: omap record_line good ++ [error_line (KeyError "bucket")]).
Proof.
  apply (lambda_handler_stops_at_bad_record
           [("Records",
             PList ([s3_record "log-archive" "logs/part-0000"]
                    ++ PDict [("s3", PDict [])]
                    :: [s3_record "log-archive" "logs/part-0001"]))]
           [s3_record "log-archive" "logs/part-0000"]
           (PDict [("s3", PDict [])])
           [s3_record "log-archive" "logs/part-0001"]
           (KeyError "bucket") PNone).
  - reflexivity.
  - repeat constructor.
  - reflexivity.
Defined.

End LambdaFunctionProofs.

(** * Properties of the test harness *)

Module TestInfrastructureProofs.

Import TestInfrastructure.
Local Open Scope prog_scope.

(** ** Proof support *)

Ltac unfold_prog :=
  unfold try_ClientError, bind, ret, raise, log, time_time, time_sleep, call,
    prefix_events, outcome_of, clock_of, events_of in *.

Lemma events_of_prefix {A} tr (r : Res A) :
  events_of (prefix_events tr r) = tr ++ events_of r.
Proof. destruct r as [[o t] tr']. reflexivity. Qed.

Lemma outcome_of_prefix {A} tr (r : Res A) :
  outcome_of (prefix_events tr r) = outcome_of r.
Proof. destruct r as [[o t] tr']. reflexivity. Qed.

Lemma clock_of_prefix {A} tr (r : Res A) :
  clock_of (prefix_events tr r) = clock_of r.
Proof. destruct r as [[o t] tr']. reflexivity. Qed.

Lemma bind_Ret {A B} (m : M A) (k : A -> M B) t a t1 tr1 :
  m t = (Ret a, t1, tr1) -> bind m k t = prefix_events tr1 (k a t1).
Proof. unfold bind. intros ->. reflexivity. Qed.

Lemma bind_Raise {A B} (m : M A) (k : A -> M B) t e t1 tr1 :
  m t = (Raise e, t1, tr1) -> bind m k t = (Raise e, t1, tr1).
Proof. unfold bind. intros ->. reflexivity. Qed.

Lemma range_NoDup n : NoDup (range n).
Proof.
  unfold range. apply NoDup_fmap_2; [intros x y; lia | apply NoDup_seq].
Qed.

Lemma range_length n : length (range n) = Z.to_nat n.
Proof. unfold range. rewrite length_map, length_seq. reflexivity. Qed.

Lemma tag_inj i j : tag i = tag j -> i = j.
Proof.
  unfold tag. intros H. apply (inj (String.app "message-")) in H.
  apply (inj pretty) in H. exact H.
Qed.

(** ** The Trigger Generator *)

Section InvokeLambda.

Context (env : Env) (function_name : string).

(** One iteration whose submission is answered, whatever the status code:
    the loop goes on after the sleep. *)
Lemma invoke_loop_answered (n i : Z) (rest : list Z) (t : Z) resp :
  lambda_invoke env t function_name "Event" (payload_of i t) = Ok resp ->
  invoke_loop env function_name n (i :: rest) t =
  prefix_events
    [EvInvoke t function_name "Event" (payload_of i t) (Ok resp);
     ack_line i n resp;
     EvSleep (t + Z.of_nat (latency env t)) 1]
    (invoke_loop env function_name n rest
       (t + Z.of_nat (latency env t) + 1
        + Z.of_nat (oversleep env (t + Z.of_nat (latency env t))))).
Proof.
  intros Hresp. cbn [invoke_loop]. unfold lambda_client_invoke, ack_line, payload_of in *.
  unfold_prog. rewrite Hresp.
  destruct ((200 <=? StatusCode resp) && (StatusCode resp <? 300)); cbn;
    destruct (invoke_loop env function_name n rest _) as [[o t1] tr1]; reflexivity.
Qed.

(** One iteration whose submission raises [ClientError]: [return False]. *)
Lemma invoke_loop_faulted (n i : Z) (rest : list Z) (t : Z) code :
  lambda_invoke env t function_name "Event" (payload_of i t) = Fault code ->
  invoke_loop env function_name n (i :: rest) t =
  (Ret false, t + Z.of_nat (latency env t),
   [EvInvoke t function_name "Event" (payload_of i t) (Fault code);
    EvLog ERROR "Error invoking Lambda: {}" [AExn (ClientError code)]]).
Proof.
  intros Hresp. cbn [invoke_loop]. unfold lambda_client_invoke, payload_of in *.
  unfold_prog. rewrite Hresp. reflexivity.
Qed.

Lemma submission_ack_line i n resp : submission (ack_line i n resp) = None.
Proof. unfold ack_line. destruct (_ && _); reflexivity. Qed.

Lemma acknowledgment_ack_line i n resp : acknowledgment (ack_line i n resp) = None.
Proof. unfold ack_line. destruct (_ && _); reflexivity. Qed.

(** What the loop returns, whatever the environment answers: [True]
    exactly when no submission raised.  The status codes do not enter the
    result. *)
Lemma invoke_loop_verdict (n : Z) (indices : list Z) (t : Z) :
  let r := invoke_loop env function_name n indices t in
  outcome_of r = Ret (forallb answered (acknowledgments (events_of r))).
Proof.
  cbv zeta. revert t. induction indices as [|i rest IH]; intros t; [reflexivity|].
  destruct (lambda_invoke env t function_name "Event" (payload_of i t))
    as [resp|code] eqn:Hr.
  - rewrite (invoke_loop_answered n i rest t resp Hr).
    rewrite outcome_of_prefix, events_of_prefix, IH.
    unfold acknowledgments. cbn [app omap list_omap acknowledgment].
    rewrite acknowledgment_ack_line. reflexivity.
  - rewrite (invoke_loop_faulted n i rest t code Hr). reflexivity.
Qed.

Lemma invoke_lambda_verdict (n t : Z) :
  let r := invoke_lambda env function_name n t in
  outcome_of r = Ret (forallb answered (acknowledgments (events_of r))).
Proof.
  cbv zeta. unfold invoke_lambda. erewrite bind_Ret by reflexivity.
  rewrite outcome_of_prefix, events_of_prefix. apply invoke_loop_verdict.
Qed.

Lemma invoke_loop_fault_free (n : Z) (indices : list Z) (t : Z) :
  fault_free env function_name ->
  exists t' tr,
    invoke_loop env function_name n indices t = (Ret true, t', tr)
    /\ map (fun s => test s.2) (submissions tr) = map tag indices
    /\ Forall (fun s => t <= s.1 /\ timestamp s.2 = s.1) (submissions tr)
    /\ spaced 1 (map fst (submissions tr))
    /\ t <= t'.
Proof.
  intros Hff. revert t. induction indices as [|i rest IH]; intros t.
  - exists t, []. cbn. unfold ret. repeat split; auto; lia.
  - destruct (Hff t (payload_of i t)) as [resp Hresp].
    rewrite (invoke_loop_answered n i rest t resp Hresp).
    set (t1 := t + Z.of_nat (latency env t) + 1
               + Z.of_nat (oversleep env (t + Z.of_nat (latency env t)))).
    destruct (IH t1) as (t' & tr & Hrun & Htags & Hfrom & Hsp & Hle).
    rewrite Hrun. cbn [prefix_events].
    eexists _, _. split; [reflexivity|].
    assert (Hsub : submissions
              ([EvInvoke t function_name "Event" (payload_of i t) (Ok resp);
                ack_line i n resp;
                EvSleep (t + Z.of_nat (latency env t)) 1] ++ tr)
            = (t, payload_of i t) :: submissions tr).
    { unfold submissions. cbn [app omap list_omap submission].
      rewrite submission_ack_line. reflexivity. }
    rewrite Hsub. cbn [map fst snd].
    split; [cbn [payload_of test]; f_equal; exact Htags|].
    split.
    { constructor; [cbn; split; [lia|reflexivity]|].
      eapply Forall_impl; [exact Hfrom|]. intros s [Hs1 Hs2].
      split; [subst t1; lia|exact Hs2]. }
    split; [|subst t1; lia].
    destruct (submissions tr) as [|[u q] more]; [exact I|].
    cbn [map fst spaced] in *. split; [|exact Hsp].
    apply Forall_cons in Hfrom as [[Hu _] _]. cbn in Hu. subst t1. lia.
Qed.

(** C8.  A fault-free run of [invoke_lambda] with [num_invocations = n >= 0]
    returns after exactly [n] submissions; their tags are ["message-0"],
    ["message-1"], ... in order and pairwise distinct; and each submission
    starts at least one time unit after the one before. *)
Theorem invoke_lambda_submissions (n t0 : Z) :
  0 <= n ->
  fault_free env function_name ->
  exists t' tr,
    invoke_lambda env function_name n t0 = (Ret true, t', tr)
    /\ Z.of_nat (length (submissions tr)) = n
    /\ map (fun s => test s.2) (submissions tr) = map tag (range n)
    /\ NoDup (map (fun s => test s.2) (submissions tr))
    /\ spaced 1 (map fst (submissions tr)).
Proof.
  intros Hn Hff.
  destruct (invoke_loop_fault_free n (range n) t0 Hff)
    as (t' & tr & Hrun & Htags & _ & Hsp & _).
  unfold invoke_lambda. unfold_prog. rewrite Hrun. cbn.
  eexists _, _. split; [reflexivity|].
  change (submissions (EvLog INFO "Invoking Lambda function {} {} times..."
            [AStr function_name; AInt n] :: tr)) with (submissions tr).
  repeat split.
  - rewrite <- (length_map (fun s => test s.2)), Htags, length_map, range_length. lia.
  - exact Htags.
  - rewrite Htags. apply NoDup_fmap_2; [exact tag_inj | apply range_NoDup].
  - exact Hsp.
Qed.

End InvokeLambda.

(** ** The Log Checker *)

Section CloudWatchLogs.

Context (env : Env) (log_group_name : string).

Lemma check_cloudwatch_logs_outcome (t0 : Z) :
  outcome_of (check_cloudwatch_logs env log_group_name t0)
  = Ret (logs_observed env log_group_name t0).
Proof.
  unfold logs_observed, streams_reply, window_reply, check_cloudwatch_logs,
    logs_client_describe_log_streams, logs_client_get_log_events.
  unfold_prog.
  destruct (describe_log_streams env t0 log_group_name "LastEventTime" true 5)
    as [[[[|s ss]|]]|code]; cbn; try reflexivity.
  destruct (get_log_events env (t0 + Z.of_nat (latency env t0)) log_group_name
              (logStreamName s) 10) as [[[[|e es]|]]|code]; reflexivity.
Qed.

(** C7.  [check_cloudwatch_logs] never raises; it returns [True] exactly
    when the stream listing is answered with at least one stream and the
    ten-event window fetched from the first (most recently active) stream of
    that listing is answered with at least one event.  An absent or empty
    stream list, an absent or empty event list, and a [ClientError] from
    either call all give [False]. *)
Theorem check_cloudwatch_logs_verdict (t0 : Z) :
  let r := check_cloudwatch_logs env log_group_name t0 in
  (exists b, outcome_of r = Ret b)
  /\ (outcome_of r = Ret true <->
      exists s ss e es,
        streams_reply env log_group_name t0 = Ok {| logStreams := Some (s :: ss) |}
        /\ window_reply env log_group_name t0 s = Ok {| events := Some (e :: es) |})
  /\ (forall resp,
        streams_reply env log_group_name t0 = Ok resp ->
        truthy (logStreams resp) = false ->
        outcome_of r = Ret false)
  /\ (forall s ss resp,
        streams_reply env log_group_name t0 = Ok {| logStreams := Some (s :: ss) |} ->
        window_reply env log_group_name t0 s = Ok resp ->
        truthy (events resp) = false ->
        outcome_of r = Ret false)
  /\ (forall code,
        streams_reply env log_group_name t0 = Fault code -> outcome_of r = Ret false)
  /\ (forall s ss code,
        streams_reply env log_group_name t0 = Ok {| logStreams := Some (s :: ss) |} ->
        window_reply env log_group_name t0 s = Fault code ->
        outcome_of r = Ret false).
Proof.
  cbv zeta. rewrite check_cloudwatch_logs_outcome. unfold logs_observed.
  split; [eauto|]. split; [|repeat split].
  - split.
    + destruct (streams_reply env log_group_name t0) as [[[[|s ss]|]]|code]; cbn;
        try discriminate.
      destruct (window_reply env log_group_name t0 s)
        as [[[[|e es]|]]|code] eqn:Hw; cbn;
        try discriminate.
      intros _. exists s, ss, e, es. split; [reflexivity|exact Hw].
    + intros (s & ss & e & es & -> & Hw). cbn. rewrite Hw. reflexivity.
  - intros resp -> Hfalse. destruct (logStreams resp) as [[|s ss]|];
      [reflexivity|discriminate|reflexivity].
  - intros s ss resp -> Hw Hfalse. cbn. rewrite Hw, Hfalse. reflexivity.
  - intros code ->. reflexivity.
  - intros s ss code -> Hw. cbn. rewrite Hw. reflexivity.
Qed.

End CloudWatchLogs.

(** ** The Object-Store Watcher *)

Section Watcher.

Context (env : Env) (bucket_name : string).

(** The loop, unfolded once. *)
Lemma wait_loop_step (end_time t : Z) :
  wait_loop env bucket_name end_time t =
  if Z_lt_dec t end_time then
    match poll_once env bucket_name t with
    | (Ret (Some v), t', tr) => (Ret v, t', tr)
    | (Ret None, t', tr) => prefix_events tr (wait_loop env bucket_name end_time t')
    | (Raise ex, t', tr) => (Raise ex, t', tr)
    end
  else (Ret [], t, [timeout_line]).
Proof.
  funelim (wait_loop env bucket_name end_time t); rewrite Heq; cbn;
    try match goal with E : poll_once _ _ _ = _ |- _ => rewrite E end;
    reflexivity.
Qed.

Lemma poll_once_found t resp :
  listing_reply env bucket_name t = Ok resp -> 0 < key_count resp ->
  poll_once env bucket_name t =
  (match Contents resp with
   | Some cs => Ret (Some cs)
   | None => Raise (KeyError "Contents")
   end, t + Z.of_nat (latency env t), found_events bucket_name t resp).
Proof.
  unfold listing_reply, key_count, poll_once, s3_client_list_objects_v2, found_events.
  intros Hr Hk. unfold_prog. rewrite Hr.
  replace (default 0 (KeyCount resp) >? 0) with true by lia.
  cbn. destruct (Contents resp); reflexivity.
Qed.

Lemma poll_once_empty t resp :
  listing_reply env bucket_name t = Ok resp -> key_count resp <= 0 ->
  poll_once env bucket_name t
  = (Ret None, next_poll env t, empty_events env bucket_name t resp).
Proof.
  unfold listing_reply, key_count, poll_once, s3_client_list_objects_v2, empty_events.
  intros Hr Hk. unfold_prog. rewrite Hr.
  replace (default 0 (KeyCount resp) >? 0) with false by lia.
  reflexivity.
Qed.

Lemma poll_once_fault t code :
  listing_reply env bucket_name t = Fault code ->
  poll_once env bucket_name t =
  (Ret (Some []), t + Z.of_nat (latency env t), fault_events bucket_name t code).
Proof.
  unfold listing_reply, poll_once, s3_client_list_objects_v2, fault_events.
  intros Hr. unfold_prog. rewrite Hr. reflexivity.
Qed.

(** Induction on the time left before the deadline. *)
Lemma deadline_ind (end_time : Z) (P : Z -> Prop) :
  (forall t, end_time <= t -> P t) ->
  (forall t, t < end_time -> (forall t', t < t' -> P t') -> P t) ->
  forall t, P t.
Proof.
  intros Hpast Hstep t.
  remember (Z.to_nat (end_time - t)) as n eqn:Hn.
  revert t Hn. induction n as [n IH] using lt_wf_ind. intros t Hn.
  destruct (Z_lt_dec t end_time) as [Hlt|Hge]; [|apply Hpast; lia].
  apply Hstep; [exact Hlt|]. intros t' Ht'.
  apply (IH (Z.to_nat (end_time - t'))); [lia|reflexivity].
Qed.

Lemma next_poll_later t : t + 10 <= next_poll env t.
Proof. unfold next_poll. lia. Qed.

(** The loop always returns, along one of the runs of [(watch env bucket_name)]. *)
Lemma wait_loop_watch (end_time t : Z) :
  watch env bucket_name end_time t (wait_loop env bucket_name end_time t).
Proof.
  induction t as [t Hpast|t Hlt IH] using (deadline_ind end_time);
    rewrite wait_loop_step; destruct (Z_lt_dec t end_time) as [?|?]; try lia.
  - apply (watch_timeout env bucket_name). lia.
  - destruct (listing_reply env bucket_name t) as [resp|code] eqn:Hr.
    + destruct (Z_lt_dec 0 (key_count resp)) as [Hk|Hk].
      * rewrite (poll_once_found t resp Hr Hk).
        pose proof (watch_found env bucket_name end_time t resp Hlt Hr Hk) as Hw.
        unfold found_outcome in Hw. destruct (Contents resp); exact Hw.
      * rewrite (poll_once_empty t resp Hr) by lia.
        apply (watch_again env bucket_name); [exact Hlt|exact Hr|lia|].
        apply IH. pose proof (next_poll_later t). lia.
    + rewrite (poll_once_fault t code Hr).
      apply (watch_fault env bucket_name); assumption.
Qed.

Lemma polls_again t resp (r : Res (list S3Object)) :
  polls (events_of (prefix_events (empty_events env bucket_name t resp) r))
  = (t, Ok resp) :: polls (events_of r).
Proof. rewrite events_of_prefix. reflexivity. Qed.

(** Every poll of a run starts before the deadline, not before the loop
    was entered, and observes what the bucket answers at that time; the run
    ends no earlier than it starts. *)
Lemma watch_polls_in_time end_time t r :
  watch env bucket_name end_time t r ->
  Forall (fun p => t <= p.1 < end_time /\ p.2 = listing_reply env bucket_name p.1)
    (polls (events_of r))
  /\ t <= clock_of r.
Proof.
  induction 1 as [t Ht|t resp Ht Hr Hk|t code Ht Hr|t resp r Ht Hr Hk Hw [IHp IHc]].
  - split; [constructor|cbn; lia].
  - split; [|cbn; lia]. repeat constructor; cbn; try lia. symmetry; exact Hr.
  - split; [|cbn; lia]. repeat constructor; cbn; try lia. symmetry; exact Hr.
  - pose proof (next_poll_later t) as Hn.
    rewrite polls_again, clock_of_prefix. split; [|lia].
    constructor; [cbn; repeat split; try lia; symmetry; exact Hr|].
    eapply Forall_impl; [exact IHp|]. cbn. intros p [[? ?] ?]. repeat split; auto; lia.
Qed.

(** A poll that finds objects or faults is the last one and fixes the
    result; a run whose polls all find nothing ends at or after the
    deadline with the empty list. *)
Lemma watch_result end_time t r :
  watch env bucket_name end_time t r ->
  (forall u resp, In (u, Ok resp) (polls (events_of r)) -> 0 < key_count resp ->
     outcome_of r = found_outcome resp
     /\ last (polls (events_of r)) = Some (u, Ok resp))
  /\ (Forall (fun p => observes_nothing p.2 = true) (polls (events_of r)) ->
      outcome_of r = Ret [] /\ end_time <= clock_of r)
  /\ (forall u code, In (u, Fault code) (polls (events_of r)) ->
      outcome_of r = Ret []
      /\ last (polls (events_of r)) = Some (u, Fault code)).
Proof.
  induction 1
    as [t Ht|t resp Ht Hr Hk|t code Ht Hr|t resp r Ht Hr Hk Hw (IHf & IHe & IHx)].
  - repeat split; cbn; try lia; intros; contradiction.
  - split; [|split].
    + cbn. intros u resp' [[= <- <-]|[]] _. split; reflexivity.
    + cbn. intros Hall. apply Forall_cons in Hall as [Hall _]. cbn in Hall. lia.
    + cbn. intros u code [[= ]|[]].
  - split; [|split].
    + cbn. intros u resp' [[= ]|[]].
    + cbn. intros Hall. apply Forall_cons in Hall as [Hall _]. discriminate.
    + cbn. intros u code' [[= <- <-]|[]]. split; reflexivity.
  - rewrite polls_again, outcome_of_prefix, clock_of_prefix.
    split; [|split].
    + intros u resp' [[= <- <-]|Hin] Hk'; [lia|].
      destruct (IHf u resp' Hin Hk') as [Ho Hl]. split; [exact Ho|].
      destruct (polls (events_of r)); [contradiction|exact Hl].
    + intros Hall. apply Forall_cons in Hall as [_ Hall]. exact (IHe Hall).
    + intros u code [[= ]|Hin].
      destruct (IHx u code Hin) as [Ho Hl]. split; [exact Ho|].
      destruct (polls (events_of r)); [contradiction|exact Hl].
Qed.

(** The deadline is fixed on entry: the watcher is its entry line followed
    by the loop run against [t0 + wait_time]. *)
Lemma wait_for_s3_objects_loop (wait_time t0 : Z) :
  wait_for_s3_objects env bucket_name wait_time t0 =
  prefix_events [entry_line bucket_name wait_time]
    (wait_loop env bucket_name (t0 + wait_time) t0).
Proof.
  unfold wait_for_s3_objects. unfold_prog. cbn.
  destruct (wait_loop env bucket_name (t0 + wait_time) t0) as [[o t] tr].
  reflexivity.
Qed.

Lemma wait_for_s3_objects_polls (wait_time t0 : Z) :
  polls (events_of (wait_for_s3_objects env bucket_name wait_time t0))
  = polls (events_of (wait_loop env bucket_name (t0 + wait_time) t0)).
Proof. rewrite wait_for_s3_objects_loop, events_of_prefix. reflexivity. Qed.

(** C6.  When some poll of the run observes objects, the watcher returns
    the [Contents] of that poll's response and polls no more; when every
    poll of the run observes nothing, it returns the empty list, as a value,
    at or after the deadline; when some poll faults with [ClientError], that
    poll is the last one and the watcher returns the empty list. *)
Theorem wait_for_s3_objects_result (wait_time t0 : Z) :
  let r := wait_for_s3_objects env bucket_name wait_time t0 in
  let ps := polls (events_of r) in
  (forall u resp cs,
     In (u, Ok resp) ps -> 0 < key_count resp -> Contents resp = Some cs ->
     outcome_of r = Ret cs /\ last ps = Some (u, Ok resp))
  /\ (Forall (fun p => observes_nothing p.2 = true) ps ->
      outcome_of r = Ret [] /\ t0 + wait_time <= clock_of r)
  /\ (forall u code,
       In (u, Fault code) ps ->
       outcome_of r = Ret [] /\ last ps = Some (u, Fault code)).
Proof.
  cbv zeta. rewrite wait_for_s3_objects_polls.
  rewrite wait_for_s3_objects_loop, outcome_of_prefix, clock_of_prefix.
  destruct (watch_result _ _ _ (wait_loop_watch (t0 + wait_time) t0))
    as (Hf & He & Hx).
  split; [|split; [exact He|exact Hx]].
  intros u resp cs Hin Hk Hcs. destruct (Hf u resp Hin Hk) as [Ho Hl].
  split; [|exact Hl]. rewrite Ho. unfold found_outcome. rewrite Hcs. reflexivity.
Qed.

(** With nothing to see before [t] and objects from [t] on, a run entered
    less than a poll period after [t] ends less than a poll period and a
    call after [t]: by the first poll started at or after [t], or because
    the deadline has passed. *)
Lemma watch_returns_soon_bounded (L S : nat) end_time t c r :
  watch env bucket_name end_time c r ->
  bounded_clock env L S ->
  c < t + 10 + Z.of_nat L + Z.of_nat S ->
  (forall u, c <= u < t -> observes_nothing (listing_reply env bucket_name u) = true) ->
  (forall u, t <= u -> observes_objects (listing_reply env bucket_name u) = true) ->
  clock_of r < t + 10 + Z.of_nat S + 2 * Z.of_nat L
  /\ (t < end_time -> t <= clock_of r)
  /\ ((exists u resp,
         t <= u < end_time /\ clock_of r = u + Z.of_nat (latency env u)
         /\ listing_reply env bucket_name u = Ok resp /\ 0 < key_count resp
         /\ outcome_of r = found_outcome resp)
      \/ (outcome_of r = Ret [] /\ end_time <= clock_of r)).
Proof.
  intros Hw [Hlat Hover].
  induction Hw as [c Hc|c resp Hc Hr Hk|c code Hc Hr|c resp r Hc Hr Hk Hw IH];
    intros Hsoon Hbefore Hafter.
  - cbn. repeat split; try lia. right. split; [reflexivity|lia].
  - assert (t <= c) as Htc.
    { destruct (Z_lt_dec c t) as [Hlt|]; [|lia].
      specialize (Hbefore c ltac:(lia)). rewrite Hr in Hbefore. cbn in Hbefore. lia. }
    pose proof (Hlat c). cbn. repeat split; try lia.
    left. exists c, resp. repeat split; auto; lia.
  - exfalso. destruct (Z_lt_dec c t) as [Hlt|Hge].
    + specialize (Hbefore c ltac:(lia)). rewrite Hr in Hbefore. discriminate.
    + specialize (Hafter c ltac:(lia)). rewrite Hr in Hafter. discriminate.
  - assert (c < t) as Hct.
    { destruct (Z_lt_dec c t) as [|Hge]; [assumption|].
      specialize (Hafter c ltac:(lia)). rewrite Hr in Hafter. cbn in Hafter. lia. }
    pose proof (Hlat c). pose proof (Hover (c + Z.of_nat (latency env c))).
    pose proof (next_poll_later c) as Hlater.
    rewrite clock_of_prefix, outcome_of_prefix.
    apply IH; [unfold next_poll; lia| |exact Hafter].
    intros u Hu. apply Hbefore. lia.
Qed.

(** With nothing to see at any time before the deadline, a run ends at or
    after the deadline with the empty list. *)
Lemma watch_times_out end_time c r :
  watch env bucket_name end_time c r ->
  (forall u, c <= u < end_time ->
             observes_nothing (listing_reply env bucket_name u) = true) ->
  outcome_of r = Ret [] /\ end_time <= clock_of r.
Proof.
  induction 1 as [c Hc|c resp Hc Hr Hk|c code Hc Hr|c resp r Hc Hr Hk Hw IH];
    intros Hnothing.
  - split; [reflexivity|cbn; lia].
  - specialize (Hnothing c ltac:(lia)). rewrite Hr in Hnothing. cbn in Hnothing. lia.
  - specialize (Hnothing c ltac:(lia)). rewrite Hr in Hnothing. discriminate.
  - rewrite clock_of_prefix, outcome_of_prefix. apply IH.
    intros u Hu. apply Hnothing. pose proof (next_poll_later c). lia.
Qed.

(** Amended C5.  The deadline is [t0 + wait_time], with [t0] the clock on
    entry, and it is the same for every test of the loop: every poll starts
    at a time before it.  If the bucket shows nothing before [t] and objects
    from [t] on, with [t0 <= t] before the deadline, then on a clock whose
    calls take at most [L] and whose sleeps overrun by at most [S] the
    watcher returns no earlier than [t] and before [t + 10 + S + 2 * L]: the
    poll interval of ten units, one overrun, and the time of two listings,
    the one that just missed the objects and the one that sees them.  It
    returns the [Contents] seen by a poll started at or after [t] and before
    the deadline, or the empty list once the deadline has passed.  If the
    bucket shows nothing at all times before the deadline, the watcher
    returns the empty list at or after the deadline, never earlier. *)
Theorem wait_for_s3_objects_deadline (wait_time t0 : Z) :
  let end_time := t0 + wait_time in
  let r := wait_for_s3_objects env bucket_name wait_time t0 in
  r = prefix_events [entry_line bucket_name wait_time]
        (wait_loop env bucket_name end_time t0)
  /\ Forall (fun p => t0 <= p.1 < end_time /\ p.2 = listing_reply env bucket_name p.1)
       (polls (events_of r))
  /\ (forall (L S : nat) t,
       bounded_clock env L S ->
       t0 <= t < end_time ->
       (forall u, t0 <= u < t ->
                  observes_nothing (listing_reply env bucket_name u) = true) ->
       (forall u, t <= u ->
                  observes_objects (listing_reply env bucket_name u) = true) ->
       t <= clock_of r < t + 10 + Z.of_nat S + 2 * Z.of_nat L
       /\ ((exists u resp,
              t <= u < end_time /\ clock_of r = u + Z.of_nat (latency env u)
              /\ listing_reply env bucket_name u = Ok resp /\ 0 < key_count resp
              /\ outcome_of r = found_outcome resp)
           \/ (outcome_of r = Ret [] /\ end_time <= clock_of r)))
  /\ ((forall u, t0 <= u < end_time ->
                  observes_nothing (listing_reply env bucket_name u) = true) ->
      outcome_of r = Ret [] /\ end_time <= clock_of r).
Proof.
  cbv zeta. pose proof (wait_loop_watch (t0 + wait_time) t0) as Hw.
  rewrite wait_for_s3_objects_polls.
  rewrite wait_for_s3_objects_loop, outcome_of_prefix, clock_of_prefix.
  split; [reflexivity|]. split; [exact (proj1 (watch_polls_in_time _ _ _ Hw))|].
  split.
  - intros L S t Hclock Ht Hbefore Hafter.
    destruct (watch_returns_soon_bounded L S _ t _ _ Hw Hclock ltac:(lia)
                Hbefore Hafter) as (Hsoon & Hlate & Hend).
    split; [lia|exact Hend].
  - exact (watch_times_out _ _ _ Hw).
Qed.

End Watcher.

(** ** The Queue Checker *)

Section QueueChecker.

Context (env : Env) (queue_url : string).

Lemma resets_cons_ok t h vt tr :
  resets (EvChangeVisibility t queue_url h vt (Ok tt) :: tr) = (h, vt) :: resets tr.
Proof. reflexivity. Qed.

(** The loop over the messages resets one message after the other, in
    order, until a call raises; all it can raise is [ClientError]. *)
Lemma release_messages_run (messages : list Message) (t : Z) :
  let r := release_messages env queue_url messages t in
  stage_entries (events_of r) = []
  /\ t <= clock_of r
  /\ ((outcome_of r = Ret tt /\ resets (events_of r) = map reset_of messages)
      \/ (exists code done,
            outcome_of r = Raise (ClientError code)
            /\ resets (events_of r) = map reset_of done
            /\ done `prefix_of` messages)).
Proof.
  cbv zeta. revert t. induction messages as [|m rest IH]; intros t.
  - cbn. split; [reflexivity|]. split; [lia|]. left. split; reflexivity.
  - cbn [release_messages]. unfold sqs_client_change_message_visibility.
    destruct (change_message_visibility env t queue_url (ReceiptHandle m) 0)
      as [[]|code] eqn:Hc.
    + erewrite bind_Ret by (unfold call; rewrite Hc; reflexivity).
      rewrite events_of_prefix, clock_of_prefix, outcome_of_prefix.
      destruct (IH (t + Z.of_nat (latency env t))) as (Hst & Hle & Hout).
      split; [exact Hst|]. split; [lia|].
      cbn [app]. rewrite resets_cons_ok.
      destruct Hout as [[Ho Hres]|(code & done & Ho & Hres & Hpre)].
      * left. split; [exact Ho|]. cbn [map]. f_equal. exact Hres.
      * right. exists code, (m :: done). split; [exact Ho|]. split.
        -- cbn [map]. f_equal. exact Hres.
        -- apply prefix_cons. exact Hpre.
    + erewrite bind_Raise by (unfold call; rewrite Hc; reflexivity).
      cbn. split; [reflexivity|]. split; [lia|].
      right. exists code, []. split; [reflexivity|]. split; [reflexivity|].
      apply prefix_nil.
Qed.

Lemma release_messages_all (messages : list Message) (t : Z) :
  releases_succeed env queue_url ->
  outcome_of (release_messages env queue_url messages t) = Ret tt
  /\ visibility_changes (events_of (release_messages env queue_url messages t))
     = map (fun m => (ReceiptHandle m, 0, Ok tt)) messages.
Proof.
  intros Hok. revert t. induction messages as [|m rest IH]; intros t.
  - split; reflexivity.
  - cbn [release_messages]. unfold sqs_client_change_message_visibility.
    erewrite bind_Ret by (unfold call; rewrite Hok; reflexivity).
    rewrite events_of_prefix, outcome_of_prefix.
    destruct (IH (t + Z.of_nat (latency env t))) as [Ho Hres].
    split; [exact Ho|]. cbn [app map]. unfold visibility_changes in *.
    cbn [omap list_omap visibility_change]. f_equal. exact Hres.
Qed.

(** What the checker does once the queue has answered with messages
    [m0 :: rest] and the first body has parsed to [j]. *)
Lemma check_sqs_messages_parsed t0 resp m0 rest j :
  receive_reply env queue_url t0 = Ok resp ->
  default [] (Messages resp) = m0 :: rest ->
  json_loads env (Body m0) = Some j ->
  let t1 := t0 + Z.of_nat (latency env t0) in
  let rel := release_messages env queue_url (m0 :: rest) t1 in
  let head :=
    [EvLog INFO "Checking for messages in SQS queue {}..." [AStr queue_url];
     EvReceiveMessage t0 queue_url 10 10 (Ok resp);
     EvLog INFO "Found {} messages in SQS queue"
       [AInt (Z.of_nat (length (m0 :: rest)))];
     EvLog INFO "Sample SQS message: {}" [AJson j]] in
  check_sqs_messages env queue_url t0 =
  match outcome_of rel with
  | Ret _ => (Ret true, clock_of rel, head ++ events_of rel)
  | Raise (ClientError code) =>
      (Ret false, clock_of rel,
       head ++ events_of rel
       ++ [EvLog ERROR "Error checking SQS messages: {}" [AExn (ClientError code)]])
  | Raise e => (Raise e, clock_of rel, head ++ events_of rel)
  end.
Proof.
  unfold receive_reply. intros Hrecv Hmsgs Hjson. cbv zeta.
  unfold check_sqs_messages, sqs_client_receive_message, json_loads_py.
  unfold_prog. rewrite Hrecv, Hmsgs, Hjson. cbn -[release_messages].
  destruct (release_messages env queue_url (m0 :: rest) (t0 + Z.of_nat (latency env t0)))
    as [[[[]|[code| |key]] t2] tr2]; cbn;
    rewrite ?app_nil_r, <- ?app_assoc; reflexivity.
Qed.

(** What the checker does when the first body does not parse: nothing
    catches the [JSONDecodeError]. *)
Lemma check_sqs_messages_unparsed t0 resp m0 rest :
  receive_reply env queue_url t0 = Ok resp ->
  default [] (Messages resp) = m0 :: rest ->
  json_loads env (Body m0) = None ->
  check_sqs_messages env queue_url t0 =
  (Raise JSONDecodeError, t0 + Z.of_nat (latency env t0),
   [EvLog INFO "Checking for messages in SQS queue {}..." [AStr queue_url];
    EvReceiveMessage t0 queue_url 10 10 (Ok resp);
    EvLog INFO "Found {} messages in SQS queue"
      [AInt (Z.of_nat (length (m0 :: rest)))]]).
Proof.
  unfold receive_reply. intros Hrecv Hmsgs Hjson.
  unfold check_sqs_messages, sqs_client_receive_message, json_loads_py.
  unfold_prog. rewrite Hrecv, Hmsgs, Hjson. reflexivity.
Qed.

Lemma check_sqs_messages_none t0 resp :
  receive_reply env queue_url t0 = Ok resp ->
  default [] (Messages resp) = [] ->
  check_sqs_messages env queue_url t0 =
  (Ret false, t0 + Z.of_nat (latency env t0),
   [EvLog INFO "Checking for messages in SQS queue {}..." [AStr queue_url];
    EvReceiveMessage t0 queue_url 10 10 (Ok resp);
    EvLog WARNING "No messages found in SQS queue" []]).
Proof.
  unfold receive_reply. intros Hrecv Hmsgs.
  unfold check_sqs_messages, sqs_client_receive_message.
  unfold_prog. rewrite Hrecv, Hmsgs. reflexivity.
Qed.

Lemma check_sqs_messages_fault t0 code :
  receive_reply env queue_url t0 = Fault code ->
  check_sqs_messages env queue_url t0 =
  (Ret false, t0 + Z.of_nat (latency env t0),
   [EvLog INFO "Checking for messages in SQS queue {}..." [AStr queue_url];
    EvReceiveMessage t0 queue_url 10 10 (Fault code);
    EvLog ERROR "Error checking SQS messages: {}" [AExn (ClientError code)]]).
Proof.
  unfold receive_reply. intros Hrecv.
  unfold check_sqs_messages, sqs_client_receive_message.
  unfold_prog. rewrite Hrecv. reflexivity.
Qed.

(** Amended C1.  When the receive answers with one or more messages, the
    first body parses as JSON and no visibility call raises, the checker
    returns [True] and has made exactly one visibility call per received
    message, in the order received, each with timeout zero and each
    acknowledged. *)
Theorem check_sqs_messages_releases (t0 : Z) resp m0 rest j :
  receive_reply env queue_url t0 = Ok resp ->
  Messages resp = Some (m0 :: rest) ->
  json_loads env (Body m0) = Some j ->
  releases_succeed env queue_url ->
  let r := check_sqs_messages env queue_url t0 in
  outcome_of r = Ret true
  /\ visibility_changes (events_of r)
     = map (fun m => (ReceiptHandle m, 0, Ok tt)) (m0 :: rest).
Proof.
  intros Hrecv Hmsgs Hjson Hok. cbv zeta.
  rewrite (check_sqs_messages_parsed t0 resp m0 rest j Hrecv) by
    (try rewrite Hmsgs; auto).
  destruct (release_messages_all (m0 :: rest) (t0 + Z.of_nat (latency env t0)) Hok)
    as [Ho Hvis].
  rewrite Ho. split; [reflexivity|].
  unfold events_of at 1. cbn [snd]. exact Hvis.
Qed.

End QueueChecker.

(** ** What leaves a leaf checker *)

Section LeafCheckers.

Context (env : Env).

Lemma stage_entries_app tr1 tr2 :
  stage_entries (tr1 ++ tr2) = stage_entries tr1 ++ stage_entries tr2.
Proof. apply omap_app. Qed.

Lemma stage_entry_ack_line i n resp : stage_entry (ack_line i n resp) = None.
Proof. unfold ack_line. destruct (_ && _); reflexivity. Qed.

(** The submission loop always returns a boolean, whatever the
    environment answers, and logs no entry line. *)
Lemma invoke_loop_returns function_name (n : Z) (indices : list Z) (t : Z) :
  let r := invoke_loop env function_name n indices t in
  (exists b, outcome_of r = Ret b) /\ stage_entries (events_of r) = [].
Proof.
  cbv zeta. revert t. induction indices as [|i rest IH]; intros t.
  - split; [exists true|]; reflexivity.
  - destruct (lambda_invoke env t function_name "Event" (payload_of i t))
      as [resp|code] eqn:Hr.
    + rewrite (invoke_loop_answered env function_name n i rest t resp Hr).
      rewrite outcome_of_prefix, events_of_prefix, stage_entries_app.
      destruct (IH (t + Z.of_nat (latency env t) + 1
                    + Z.of_nat (oversleep env (t + Z.of_nat (latency env t)))))
        as [Hb Hst].
      split; [exact Hb|]. rewrite Hst. unfold stage_entries.
      cbn [omap list_omap]. rewrite stage_entry_ack_line. reflexivity.
    + rewrite (invoke_loop_faulted env function_name n i rest t code Hr).
      split; [exists false|]; reflexivity.
Qed.

Lemma invoke_lambda_returns function_name (n t : Z) :
  let r := invoke_lambda env function_name n t in
  (exists b, outcome_of r = Ret b) /\ stage_entries (events_of r) = [StageInvoke].
Proof.
  cbv zeta. unfold invoke_lambda.
  erewrite bind_Ret by reflexivity.
  rewrite outcome_of_prefix, events_of_prefix, stage_entries_app.
  destruct (invoke_loop_returns function_name n (range n) t) as [Hb Hst].
  split; [exact Hb|]. rewrite Hst. reflexivity.
Qed.

Lemma check_cloudwatch_logs_entries log_group_name (t : Z) :
  stage_entries (events_of (check_cloudwatch_logs env log_group_name t)) = [StageLogs].
Proof.
  unfold check_cloudwatch_logs, logs_client_describe_log_streams,
    logs_client_get_log_events.
  unfold_prog.
  destruct (describe_log_streams env t log_group_name "LastEventTime" true 5)
    as [[[[|s ss]|]]|code]; cbn; try reflexivity.
  destruct (get_log_events env (t + Z.of_nat (latency env t)) log_group_name
              (logStreamName s) 10) as [[[[|e es]|]]|code]; reflexivity.
Qed.

Lemma watch_entries bucket_name end_time t r :
  watch env bucket_name end_time t r ->
  stage_entries (events_of r) = []
  /\ ((exists l, outcome_of r = Ret l) \/ outcome_of r = Raise (KeyError "Contents")).
Proof.
  induction 1 as [t Ht|t resp Ht Hr Hk|t code Ht Hr|t resp r Ht Hr Hk Hw [IHs IHo]].
  - split; [reflexivity|left; eexists; reflexivity].
  - split; [reflexivity|]. cbn. unfold found_outcome.
    destruct (Contents resp); [left; eexists; reflexivity|right; reflexivity].
  - split; [reflexivity|left; eexists; reflexivity].
  - rewrite events_of_prefix, outcome_of_prefix, stage_entries_app, IHs.
    split; [reflexivity|exact IHo].
Qed.

(** The watcher returns a list, or raises the [KeyError] of a response
    that counts keys and holds no [Contents]. *)
Lemma wait_for_s3_objects_returns bucket_name (wait_time t : Z) :
  let r := wait_for_s3_objects env bucket_name wait_time t in
  ((exists l, outcome_of r = Ret l) \/ outcome_of r = Raise (KeyError "Contents"))
  /\ stage_entries (events_of r) = [StageS3].
Proof.
  cbv zeta. rewrite wait_for_s3_objects_loop.
  rewrite outcome_of_prefix, events_of_prefix, stage_entries_app.
  destruct (watch_entries _ _ _ _ (wait_loop_watch env bucket_name (t + wait_time) t))
    as [Hst Ho].
  split; [exact Ho|]. rewrite Hst. reflexivity.
Qed.

(** The queue checker returns a boolean, or raises the [JSONDecodeError]
    of a first body that does not parse. *)
Lemma check_sqs_messages_returns queue_url (t : Z) :
  let r := check_sqs_messages env queue_url t in
  ((exists b, outcome_of r = Ret b) \/ outcome_of r = Raise JSONDecodeError)
  /\ stage_entries (events_of r) = [StageSqs].
Proof.
  cbv zeta.
  destruct (receive_reply env queue_url t) as [resp|code] eqn:Hrecv.
  - destruct (default [] (Messages resp)) as [|m0 rest] eqn:Hmsgs.
    + rewrite (check_sqs_messages_none env queue_url t resp Hrecv Hmsgs).
      split; [left; exists false|]; reflexivity.
    + destruct (json_loads env (Body m0)) as [j|] eqn:Hjson.
      * rewrite (check_sqs_messages_parsed env queue_url t resp m0 rest j
                   Hrecv Hmsgs Hjson).
        destruct (release_messages_run env queue_url (m0 :: rest)
                    (t + Z.of_nat (latency env t)))
          as (Hst & _ & [[Ho _]|(code & done & Ho & _)]); rewrite Ho.
        -- split; [left; exists true; reflexivity|].
           unfold events_of at 1. cbn [snd]. rewrite stage_entries_app, Hst.
           reflexivity.
        -- split; [left; exists false; reflexivity|].
           unfold events_of at 1. cbn [snd].
           rewrite !stage_entries_app, Hst. reflexivity.
      * rewrite (check_sqs_messages_unparsed env queue_url t resp m0 rest
                   Hrecv Hmsgs Hjson).
        split; [right|]; reflexivity.
  - rewrite (check_sqs_messages_fault env queue_url t code Hrecv).
    split; [left; exists false|]; reflexivity.
Qed.

End LeafCheckers.

(** ** The orchestrator *)

Section Orchestrator.

Context (env : Env) (args : Args).

(** [main], stage by stage: an exception that leaves a stage leaves
    [main], with the events logged so far; otherwise the next stage runs,
    whatever the stage returned. *)
Lemma main_stages (t0 : Z) :
  main env args t0 =
  match invoke_lambda env (lambda_function args) 5 t0 with
  | (Raise e, t1, tr1) => (Raise e, t1, tr1)
  | (Ret b1, t1, tr1) =>
      let ev1 :=
        tr1 ++ trigger_line b1
        ++ [EvLog INFO "Waiting for logs to appear in CloudWatch..." [];
            EvSleep t1 10] in
      match check_cloudwatch_logs env (log_group args) (settled env t1) with
      | (Raise e, t2, tr2) => (Raise e, t2, ev1 ++ tr2)
      | (Ret b2, t2, tr2) =>
          let ev2 := ev1 ++ tr2 ++ logs_line b2 in
          match wait_for_s3_objects env (s3_bucket args) (wait_time args) t2 with
          | (Raise e, t3, tr3) => (Raise e, t3, ev2 ++ tr3)
          | (Ret objects, t3, tr3) =>
              let ev3 := ev2 ++ tr3 ++ objects_line objects in
              match check_sqs_messages env (sqs_queue_url args) t3 with
              | (Raise e, t4, tr4) => (Raise e, t4, ev3 ++ tr4)
              | (Ret b4, t4, tr4) =>
                  (Ret (exit_code b1 b2 objects), t4,
                   ev3 ++ tr4 ++ queue_line b4
                   ++ [summary_line (exit_code b1 b2 objects)])
              end
          end
      end
  end.
Proof.
  unfold settled, main.
  destruct (invoke_lambda env (lambda_function args) 5 t0) as [[[b1|e1] t1] tr1] eqn:H1;
    [rewrite (bind_Ret _ _ _ _ _ _ H1)|rewrite (bind_Raise _ _ _ _ _ _ H1); reflexivity].
  destruct (check_cloudwatch_logs env (log_group args)
              (t1 + 10 + Z.of_nat (oversleep env t1))) as [[[b2|e2] t2] tr2] eqn:H2.
  2: { destruct b1; unfold_prog;
       cbn -[check_cloudwatch_logs wait_for_s3_objects check_sqs_messages];
       rewrite H2; cbn; rewrite ?app_nil_r, <- ?app_assoc; reflexivity. }
  destruct (wait_for_s3_objects env (s3_bucket args) (wait_time args) t2)
    as [[[objects|e3] t3] tr3] eqn:H3.
  2: { destruct b1, b2; unfold_prog;
       cbn -[check_cloudwatch_logs wait_for_s3_objects check_sqs_messages];
       rewrite H2; cbn -[wait_for_s3_objects check_sqs_messages];
       rewrite H3; cbn; rewrite ?app_nil_r, <- ?app_assoc; reflexivity. }
  destruct (check_sqs_messages env (sqs_queue_url args) t3)
    as [[[b4|e4] t4] tr4] eqn:H4.
  - destruct b1, b2, objects as [|o os]; unfold_prog;
      cbn -[check_cloudwatch_logs wait_for_s3_objects check_sqs_messages];
      rewrite H2; cbn -[wait_for_s3_objects check_sqs_messages];
      rewrite H3; cbn -[check_sqs_messages];
      rewrite H4; destruct b4; cbn;
      rewrite ?app_nil_r, <- ?app_assoc; reflexivity.
  - destruct b1, b2, objects as [|o os]; unfold_prog;
      cbn -[check_cloudwatch_logs wait_for_s3_objects check_sqs_messages];
      rewrite H2; cbn -[wait_for_s3_objects check_sqs_messages];
      rewrite H3; cbn -[check_sqs_messages];
      rewrite H4; cbn;
      rewrite ?app_nil_r, <- ?app_assoc; reflexivity.
Qed.

(** A run of [main] in which the four stages return. *)
Lemma main_returns (t0 : Z) b1 t1 tr1 b2 t2 tr2 objects t3 tr3 b4 t4 tr4 :
  invoke_lambda env (lambda_function args) 5 t0 = (Ret b1, t1, tr1) ->
  check_cloudwatch_logs env (log_group args) (settled env t1) = (Ret b2, t2, tr2) ->
  wait_for_s3_objects env (s3_bucket args) (wait_time args) t2
    = (Ret objects, t3, tr3) ->
  check_sqs_messages env (sqs_queue_url args) t3 = (Ret b4, t4, tr4) ->
  main env args t0 =
  (Ret (exit_code b1 b2 objects), t4,
   tr1 ++ trigger_line b1
   ++ [EvLog INFO "Waiting for logs to appear in CloudWatch..." []; EvSleep t1 10]
   ++ tr2 ++ logs_line b2
   ++ tr3 ++ objects_line objects
   ++ tr4 ++ queue_line b4
   ++ [summary_line (exit_code b1 b2 objects)]).
Proof.
  intros H1 H2 H3 H4. rewrite main_stages, H1, H2, H3, H4. cbv zeta.
  rewrite <- !app_assoc. reflexivity.
Qed.

(** When [main] returns, each of the four stages has returned. *)
Lemma main_returned (t0 : Z) code :
  outcome_of (main env args t0) = Ret code ->
  exists b1 t1 tr1 b2 t2 tr2 objects t3 tr3 b4 t4 tr4,
    invoke_lambda env (lambda_function args) 5 t0 = (Ret b1, t1, tr1)
    /\ check_cloudwatch_logs env (log_group args) (settled env t1) = (Ret b2, t2, tr2)
    /\ wait_for_s3_objects env (s3_bucket args) (wait_time args) t2
       = (Ret objects, t3, tr3)
    /\ check_sqs_messages env (sqs_queue_url args) t3 = (Ret b4, t4, tr4).
Proof.
  rewrite main_stages.
  destruct (invoke_lambda env (lambda_function args) 5 t0)
    as [[[b1|e1] t1] tr1] eqn:H1; [|discriminate].
  destruct (check_cloudwatch_logs env (log_group args) (settled env t1))
    as [[[b2|e2] t2] tr2] eqn:H2; [|discriminate].
  destruct (wait_for_s3_objects env (s3_bucket args) (wait_time args) t2)
    as [[[objects|e3] t3] tr3] eqn:H3; [|discriminate].
  destruct (check_sqs_messages env (sqs_queue_url args) t3)
    as [[[b4|e4] t4] tr4] eqn:H4; [|discriminate].
  intros _. exists b1, t1, tr1, b2, t2, tr2, objects, t3, tr3, b4, t4, tr4.
  repeat split; first [reflexivity | assumption].
Qed.

Lemma exit_code_failure b1 b2 objects :
  exit_code b1 b2 objects = 1 <-> b1 = false \/ b2 = false \/ objects = [].
Proof.
  unfold exit_code. destruct b1, b2, objects as [|o os]; cbn;
    split; intros H; try discriminate; auto;
    destruct H as [H|[H|H]]; discriminate.
Qed.

Lemma exit_code_success b1 b2 objects :
  exit_code b1 b2 objects = 0 <-> b1 = true /\ b2 = true /\ objects <> [].
Proof.
  unfold exit_code. destruct b1, b2, objects as [|o os]; cbn;
    split; intros H; try discriminate; auto;
    destruct H as (H1 & H2 & H3); try discriminate; contradiction.
Qed.

(** C3.  When the four stages return, [main] returns, and its exit code is
    1 exactly when the trigger stage or the log check returned [False] or
    the object watch returned an empty list, and 0 exactly when none of them
    did; the exit code is a function of those three results, so the result
    of the queue check does not enter it. *)
Theorem main_exit_code (t0 : Z) b1 t1 tr1 b2 t2 tr2 objects t3 tr3 b4 t4 tr4 :
  invoke_lambda env (lambda_function args) 5 t0 = (Ret b1, t1, tr1) ->
  check_cloudwatch_logs env (log_group args) (settled env t1) = (Ret b2, t2, tr2) ->
  wait_for_s3_objects env (s3_bucket args) (wait_time args) t2
    = (Ret objects, t3, tr3) ->
  check_sqs_messages env (sqs_queue_url args) t3 = (Ret b4, t4, tr4) ->
  exists code,
    outcome_of (main env args t0) = Ret code
    /\ (code = 1 <-> b1 = false \/ b2 = false \/ objects = [])
    /\ (code = 0 <-> b1 = true /\ b2 = true /\ objects <> [])
    /\ code = exit_code b1 b2 objects.
Proof.
  intros H1 H2 H3 H4.
  rewrite (main_returns t0 _ _ _ _ _ _ _ _ _ _ _ _ H1 H2 H3 H4).
  exists (exit_code b1 b2 objects). split; [reflexivity|].
  split; [apply exit_code_failure|]. split; [apply exit_code_success|reflexivity].
Qed.

(** C10.  In a run of [main] that returns, each of the four stage
    functions has run once, each from the clock at which the one before
    ended (the log check after the settle delay), whatever the stages
    returned: the events of [main] are the events of [invoke_lambda],
    [check_cloudwatch_logs], [wait_for_s3_objects] and [check_sqs_messages],
    in that order, between the lines of [main] itself, and the entry lines of
    the four functions occur exactly once each, in that order. *)
Theorem main_runs_every_stage_once (t0 : Z) code :
  outcome_of (main env args t0) = Ret code ->
  stage_entries (events_of (main env args t0))
  = [StageInvoke; StageLogs; StageS3; StageSqs]
  /\ exists b1 t1 tr1 b2 t2 tr2 objects t3 tr3 b4 t4 tr4,
      invoke_lambda env (lambda_function args) 5 t0 = (Ret b1, t1, tr1)
      /\ check_cloudwatch_logs env (log_group args) (settled env t1) = (Ret b2, t2, tr2)
      /\ wait_for_s3_objects env (s3_bucket args) (wait_time args) t2
         = (Ret objects, t3, tr3)
      /\ check_sqs_messages env (sqs_queue_url args) t3 = (Ret b4, t4, tr4)
      /\ events_of (main env args t0)
         = tr1 ++ trigger_line b1
           ++ [EvLog INFO "Waiting for logs to appear in CloudWatch..." [];
               EvSleep t1 10]
           ++ tr2 ++ logs_line b2
           ++ tr3 ++ objects_line objects
           ++ tr4 ++ queue_line b4
           ++ [summary_line code].
Proof.
  intros Hret.
  destruct (main_returned t0 code Hret)
    as (b1 & t1 & tr1 & b2 & t2 & tr2 & objects & t3 & tr3 & b4 & t4 & tr4
        & H1 & H2 & H3 & H4).
  pose proof (main_returns t0 _ _ _ _ _ _ _ _ _ _ _ _ H1 H2 H3 H4) as Hmain.
  rewrite Hmain in Hret. injection Hret as <-.
  split.
  - rewrite Hmain. unfold events_of. cbn [snd].
    pose proof (proj2 (invoke_lambda_returns env (lambda_function args) 5 t0)) as E1.
    pose proof (check_cloudwatch_logs_entries env (log_group args) (settled env t1)) as E2.
    pose proof (proj2 (wait_for_s3_objects_returns env (s3_bucket args)
                         (wait_time args) t2)) as E3.
    pose proof (proj2 (check_sqs_messages_returns env (sqs_queue_url args) t3)) as E4.
    rewrite H1 in E1. rewrite H2 in E2. rewrite H3 in E3. rewrite H4 in E4.
    unfold events_of in E1, E2, E3, E4. cbn [snd] in E1, E2, E3, E4.
    rewrite !stage_entries_app, E1, E2, E3, E4.
    unfold trigger_line, logs_line, objects_line, queue_line, summary_line.
    destruct b1, b2, (nonempty objects), b4, (exit_code _ _ _ =? 0); reflexivity.
  - exists b1, t1, tr1, b2, t2, tr2, objects, t3, tr3, b4, t4, tr4.
    repeat (split; [assumption|]). rewrite Hmain. reflexivity.
Qed.

(** All that leaves [main] without an exit code is an exception that left a
    stage: never a [ClientError]. *)
Lemma main_outcome (t0 : Z) :
  (exists code, outcome_of (main env args t0) = Ret code /\ (code = 0 \/ code = 1))
  \/ outcome_of (main env args t0) = Raise (KeyError "Contents")
  \/ outcome_of (main env args t0) = Raise JSONDecodeError.
Proof.
  rewrite main_stages.
  destruct (invoke_lambda_returns env (lambda_function args) 5 t0) as [[b1 E1] _].
  destruct (invoke_lambda env (lambda_function args) 5 t0) as [[o1 t1] tr1].
  cbn in E1. subst o1.
  pose proof (check_cloudwatch_logs_outcome env (log_group args) (settled env t1)) as E2.
  destruct (check_cloudwatch_logs env (log_group args) (settled env t1)) as [[o2 t2] tr2].
  cbn in E2. subst o2.
  destruct (wait_for_s3_objects_returns env (s3_bucket args) (wait_time args) t2)
    as [E3 _].
  destruct (wait_for_s3_objects env (s3_bucket args) (wait_time args) t2)
    as [[o3 t3] tr3].
  cbn in E3. destruct E3 as [[objects ->]| ->]; [|right; left; reflexivity].
  destruct (check_sqs_messages_returns env (sqs_queue_url args) t3) as [E4 _].
  destruct (check_sqs_messages env (sqs_queue_url args) t3) as [[o4 t4] tr4].
  cbn in E4. destruct E4 as [[b4 ->]| ->]; [|right; right; reflexivity].
  left. eexists. split; [reflexivity|].
  unfold exit_code. destruct (_ && _); auto.
Qed.

End Orchestrator.

(** ** What leaves a checker, and what leaves [main] *)

Section Propagation.

Context (env : Env).

(** A visibility call of the release loop that faulted is the one whose
    [ClientError] left the loop. *)
Lemma release_messages_fault queue_url (messages : list Message) (t : Z) h vt code :
  In (h, vt, Fault code)
     (visibility_changes (events_of (release_messages env queue_url messages t))) ->
  outcome_of (release_messages env queue_url messages t) = Raise (ClientError code).
Proof.
  revert t. induction messages as [|m rest IH]; intros t; [intros []|].
  cbn [release_messages]. unfold sqs_client_change_message_visibility.
  destruct (change_message_visibility env t queue_url (ReceiptHandle m) 0)
    as [[]|code'] eqn:Hc.
  - erewrite bind_Ret by (unfold call; rewrite Hc; reflexivity).
    rewrite events_of_prefix, outcome_of_prefix.
    unfold visibility_changes in *. cbn [app omap list_omap visibility_change].
    intros [[=]|Hin]. exact (IH _ Hin).
  - erewrite bind_Raise by (unfold call; rewrite Hc; reflexivity).
    cbn. intros [[= _ _ ->]|[]]. reflexivity.
Qed.

(** A visibility call of the queue checker that faulted makes it return
    [False]. *)
Lemma check_sqs_messages_visibility_fault queue_url (t : Z) h vt code :
  In (h, vt, Fault code)
     (visibility_changes (events_of (check_sqs_messages env queue_url t))) ->
  outcome_of (check_sqs_messages env queue_url t) = Ret false.
Proof.
  destruct (receive_reply env queue_url t) as [resp|code'] eqn:Hrecv.
  - destruct (default [] (Messages resp)) as [|m0 rest] eqn:Hmsgs.
    + rewrite (check_sqs_messages_none env queue_url t resp Hrecv Hmsgs).
      intros [].
    + destruct (json_loads env (Body m0)) as [j|] eqn:Hjson.
      * rewrite (check_sqs_messages_parsed env queue_url t resp m0 rest j
                   Hrecv Hmsgs Hjson).
        pose proof (release_messages_fault queue_url (m0 :: rest)
                      (t + Z.of_nat (latency env t)) h vt code) as Hrel.
        destruct (outcome_of (release_messages env queue_url (m0 :: rest)
                                (t + Z.of_nat (latency env t))))
          as [[]|[c| |k]]; try reflexivity;
          unfold events_of at 1; cbn [snd]; unfold visibility_changes in *;
          rewrite omap_app; cbn [omap list_omap visibility_change app];
          intros Hin; specialize (Hrel Hin); discriminate.
      * rewrite (check_sqs_messages_unparsed env queue_url t resp m0 rest
                   Hrecv Hmsgs Hjson).
        intros [].
  - rewrite (check_sqs_messages_fault env queue_url t code' Hrecv). intros [].
Qed.

(** Amended C4.  A [ClientError] raised by a service call inside a leaf
    checker is turned into the checker's result and does not leave it:
    [invoke_lambda] always returns a boolean, and [False] when a submission
    of the run was refused; [check_cloudwatch_logs] always returns a
    boolean, and [False] when the stream listing faults or the window of the
    first stream faults; [wait_for_s3_objects] returns the empty list when a
    poll of the run faulted; [check_sqs_messages] returns [False] when the
    receive faults or a visibility call of the run faulted.  Exceptions of
    other classes are not caught.  [wait_for_s3_objects] returns a list
    unless a poll is answered with a key count and no [Contents], whose
    [KeyError] leaves it; [check_sqs_messages] returns a boolean unless the
    first body received does not parse, whose [JSONDecodeError] leaves it.
    [main] has no handler: an exception that leaves the object watch or the
    queue check in a run of [main] leaves [main], and [main] returns exit
    code 0 or 1 unless one of these two exceptions has left a stage. *)
Theorem leaf_checkers_contain_ClientError
    (function_name log_group_name bucket_name queue_url : string)
    (n wait t : Z) (args : Args) :
  let r1 := invoke_lambda env function_name n t in
  let r2 := check_cloudwatch_logs env log_group_name t in
  let r3 := wait_for_s3_objects env bucket_name wait t in
  let r4 := check_sqs_messages env queue_url t in
  ((exists b, outcome_of r1 = Ret b)
   /\ (forall code,
         In (Fault code) (acknowledgments (events_of r1)) ->
         outcome_of r1 = Ret false))
  /\ ((exists b, outcome_of r2 = Ret b)
      /\ (forall code,
            streams_reply env log_group_name t = Fault code ->
            outcome_of r2 = Ret false)
      /\ (forall s ss code,
            streams_reply env log_group_name t
            = Ok {| logStreams := Some (s :: ss) |} ->
            window_reply env log_group_name t s = Fault code ->
            outcome_of r2 = Ret false))
  /\ (((exists l, outcome_of r3 = Ret l)
       \/ outcome_of r3 = Raise (KeyError "Contents"))
      /\ (forall u code,
            In (u, Fault code) (polls (events_of r3)) -> outcome_of r3 = Ret [])
      /\ (forall u resp,
            In (u, Ok resp) (polls (events_of r3)) ->
            0 < key_count resp -> Contents resp = None ->
            outcome_of r3 = Raise (KeyError "Contents")))
  /\ (((exists b, outcome_of r4 = Ret b) \/ outcome_of r4 = Raise JSONDecodeError)
      /\ (forall code,
            receive_reply env queue_url t = Fault code -> outcome_of r4 = Ret false)
      /\ (forall h vt code,
            In (h, vt, Fault code) (visibility_changes (events_of r4)) ->
            outcome_of r4 = Ret false)
      /\ (forall m0 rest,
            received env queue_url t = m0 :: rest ->
            json_loads env (Body m0) = None ->
            outcome_of r4 = Raise JSONDecodeError))
  /\ (((exists code, outcome_of (main env args t) = Ret code /\ (code = 0 \/ code = 1))
       \/ outcome_of (main env args t) = Raise (KeyError "Contents")
       \/ outcome_of (main env args t) = Raise JSONDecodeError)
      /\ (forall b1 t1 tr1 b2 t2 tr2 e t3 tr3,
            invoke_lambda env (lambda_function args) 5 t = (Ret b1, t1, tr1) ->
            check_cloudwatch_logs env (log_group args) (settled env t1)
            = (Ret b2, t2, tr2) ->
            wait_for_s3_objects env (s3_bucket args) (wait_time args) t2
            = (Raise e, t3, tr3) ->
            outcome_of (main env args t) = Raise e)
      /\ (forall b1 t1 tr1 b2 t2 tr2 objects t3 tr3 e t4 tr4,
            invoke_lambda env (lambda_function args) 5 t = (Ret b1, t1, tr1) ->
            check_cloudwatch_logs env (log_group args) (settled env t1)
            = (Ret b2, t2, tr2) ->
            wait_for_s3_objects env (s3_bucket args) (wait_time args) t2
            = (Ret objects, t3, tr3) ->
            check_sqs_messages env (sqs_queue_url args) t3 = (Raise e, t4, tr4) ->
            outcome_of (main env args t) = Raise e)).
Proof.
  cbv zeta. split; [|split; [|split; [|split]]].
  - split; [exact (proj1 (invoke_lambda_returns env function_name n t))|].
    intros code Hin. rewrite invoke_lambda_verdict. f_equal.
    destruct (forallb answered _) eqn:Hall; [|reflexivity].
    rewrite forallb_forall in Hall. specialize (Hall _ Hin). discriminate.
  - rewrite check_cloudwatch_logs_outcome. unfold logs_observed.
    split; [eauto|]. split.
    + intros code ->. reflexivity.
    + intros s ss code -> Hw. cbn. rewrite Hw. reflexivity.
  - split; [exact (proj1 (wait_for_s3_objects_returns env bucket_name wait t))|].
    rewrite wait_for_s3_objects_polls.
    rewrite wait_for_s3_objects_loop, outcome_of_prefix.
    destruct (watch_result _ _ _ _ _
                (wait_loop_watch env bucket_name (t + wait) t))
      as (Hf & _ & Hx).
    split.
    + intros u code Hin. exact (proj1 (Hx u code Hin)).
    + intros u resp Hin Hk Hcs. rewrite (proj1 (Hf u resp Hin Hk)).
      unfold found_outcome. rewrite Hcs. reflexivity.
  - split; [exact (proj1 (check_sqs_messages_returns env queue_url t))|].
    split; [|split].
    + intros code Hrecv.
      rewrite (check_sqs_messages_fault env queue_url t code Hrecv). reflexivity.
    + apply check_sqs_messages_visibility_fault.
    + unfold received. intros m0 rest Hmsgs Hjson.
      destruct (receive_reply env queue_url t) as [resp|code] eqn:Hrecv;
        [|discriminate].
      rewrite (check_sqs_messages_unparsed env queue_url t resp m0 rest
                 Hrecv Hmsgs Hjson).
      reflexivity.
  - split; [apply main_outcome|]. split.
    + intros b1 t1 tr1 b2 t2 tr2 e t3 tr3 H1 H2 H3.
      rewrite main_stages, H1, H2, H3. reflexivity.
    + intros b1 t1 tr1 b2 t2 tr2 objects t3 tr3 e t4 tr4 H1 H2 H3 H4.
      rewrite main_stages, H1, H2, H3, H4. reflexivity.
Qed.

End Propagation.

(** ** The claims on the scenarios *)

Section OnScenarios.

(** The bucket is empty for 170 of the 180 units, then holds one object:
    the watcher entered at time 15 returns that object at time 185. *)
Example watcher_sees_late_object :
  let r := wait_for_s3_objects healthy "log-archive" 180 15 in
  outcome_of r = Ret [delivered] /\ clock_of r = 185
  /\ length (polls (events_of r)) = 18%nat.
Proof. vm_compute. repeat split. Qed.

(** The log group has no stream: the verdict is failure although the
    objects are there. *)
Example no_stream_fails_run :
  outcome_of (check_cloudwatch_logs (staged true false true true)
                "/aws/lambda/log-generator" 15) = Ret false
  /\ outcome_of (main (staged true false true true) (cli 180) 0) = Ret 1.
Proof. vm_compute. split; reflexivity. Qed.

(** The queue is empty and the rest succeeds: exit code 0. *)
Example empty_queue_passes_run :
  outcome_of (main (staged true true true false) (cli 180) 0) = Ret 0.
Proof. vm_compute. reflexivity. Qed.

(** Every combination of stage results is met by some run, with the
    verdict of [exit_code]. *)
Example every_combination_runs (trigger logs objects queue : bool) :
  outcome_of (main (staged trigger logs objects queue) (cli 20) 0)
  = Ret (if trigger && logs && objects then 0 else 1).
Proof. destruct trigger, logs, objects, queue; vm_compute; reflexivity. Qed.

(** C2.  Every one of the five submissions is answered 500, and
    [invoke_lambda] returns [True] all the same: it logs the rejection and
    goes on, and [main] ends with exit code 0. *)
Theorem invoke_lambda_ignores_rejection :
  let r := invoke_lambda rejecting "log-generator" 5 0 in
  outcome_of r = Ret true
  /\ acknowledgments (events_of r) = replicate 5 (Ok {| StatusCode := 500 |})
  /\ existsb is_2xx (acknowledgments (events_of r)) = false
  /\ outcome_of (main rejecting (cli 180) 0) = Ret 0.
Proof. vm_compute. repeat split. Qed.

(** C1 as stated fails: the queue answers with two messages whose first
    body is not JSON; the checker raises [JSONDecodeError] and has made no
    visibility call. *)
Lemma check_sqs_messages_unparsed_body :
  let q := "https://sqs.ap-northeast-1.amazonaws.com/1/s3-events" in
  let r := check_sqs_messages unparsable q 0 in
  receive_reply unparsable q 0
  = Ok {| Messages := Some [notice "1" "h1" "not json"; notice "2" "h2" "not json"] |}
  /\ outcome_of r = Raise JSONDecodeError
  /\ visibility_changes (events_of r) = [].
Proof. vm_compute. repeat split. Qed.

(** C4 as stated fails: the parse fault raised inside the queue checker
    leaves it, and leaves [main], which returns no exit code. *)
Lemma parse_fault_leaves_main :
  outcome_of (check_sqs_messages unparsable (sqs_queue_url (cli 180)) 185)
  = Raise JSONDecodeError
  /\ outcome_of (main unparsable (cli 180) 0) = Raise JSONDecodeError.
Proof. vm_compute. split; reflexivity. Qed.

(** Amended C4 on [failing], where every service call is refused: the
    first submission, the stream listing, the first poll and the receive
    raise [ClientError], and each checker returns its failure result. *)
Lemma leaf_checkers_contain_ClientError_failing :
  let q := "https://sqs.ap-northeast-1.amazonaws.com/1/s3-events" in
  outcome_of (invoke_lambda failing "log-generator" 5 0) = Ret false
  /\ outcome_of (check_cloudwatch_logs failing "/aws/lambda/log-generator" 0)
     = Ret false
  /\ outcome_of (wait_for_s3_objects failing "log-archive" 180 0) = Ret []
  /\ outcome_of (check_sqs_messages failing q 0) = Ret false.
Proof.
  cbv zeta.
  destruct (leaf_checkers_contain_ClientError failing
              "log-generator" "/aws/lambda/log-generator" "log-archive"
              "https://sqs.ap-northeast-1.amazonaws.com/1/s3-events"
              5 180 0 (cli 180))
    as ((_ & H1) & (_ & H2 & _) & (_ & H3 & _) & (_ & H4 & _) & _).
  split; [apply (H1 "AccessDenied"); vm_compute; left; reflexivity|].
  split; [apply (H2 "ResourceNotFoundException"); reflexivity|].
  split; [apply (H3 0 "NoSuchBucket"); vm_compute; left; reflexivity|].
  apply (H4 "QueueDoesNotExist"); reflexivity.
Defined.

(** Amended C1 on [healthy]: two messages are received, both are reset
    once. *)
Lemma check_sqs_messages_releases_healthy :
  let q := "https://sqs.ap-northeast-1.amazonaws.com/1/s3-events" in
  let r := check_sqs_messages healthy q 0 in
  outcome_of r = Ret true
  /\ visibility_changes (events_of r) = [("h1", 0, Ok tt); ("h2", 0, Ok tt)].
Proof.
  exact (check_sqs_messages_releases healthy
           "https://sqs.ap-northeast-1.amazonaws.com/1/s3-events" 0
           {| Messages := Some [notice "1" "h1" "{}"; notice "2" "h2" "{}"] |}
           (notice "1" "h1" "{}") [notice "2" "h2" "{}"] (JObj [])
           eq_refl eq_refl eq_refl (fun _ _ => eq_refl)).
Defined.

(** C8 on [healthy], with five submissions. *)
Lemma invoke_lambda_submissions_healthy :
  exists t' tr,
    invoke_lambda healthy "log-generator" 5 0 = (Ret true, t', tr)
    /\ Z.of_nat (length (submissions tr)) = 5
    /\ map (fun s => test s.2) (submissions tr) = map tag (range 5)
    /\ NoDup (map (fun s => test s.2) (submissions tr))
    /\ spaced 1 (map fst (submissions tr)).
Proof.
  apply (invoke_lambda_submissions healthy "log-generator" 5 0).
  - lia.
  - intros t p. exists {| StatusCode := 202 |}. reflexivity.
Defined.

(** C3 on a run whose object watch times out and whose other stages
    succeed. *)
Lemma main_exit_code_staged :
  exists code,
    outcome_of (main (staged true true false true) (cli 20) 0) = Ret code
    /\ (code = 1 <-> true = false \/ true = false \/ @nil S3Object = [])
    /\ (code = 0 <-> true = true /\ true = true /\ @nil S3Object <> [])
    /\ code = exit_code true true [].
Proof.
  eapply (main_exit_code (staged true true false true) (cli 20) 0
            true _ _ true _ _ [] _ _ true _ _); vm_compute; reflexivity.
Defined.

(** C10 on a run in which every stage fails: none is skipped. *)
Lemma main_runs_every_stage_once_staged :
  stage_entries (events_of (main (staged false false false false) (cli 20) 0))
  = [StageInvoke; StageLogs; StageS3; StageSqs].
Proof.
  apply (main_runs_every_stage_once (staged false false false false) (cli 20) 0 1).
  vm_compute. reflexivity.
Defined.

(** C6 on [throttled]: the third poll faults, the watch stops there with
    the empty list. *)
Lemma wait_for_s3_objects_result_throttled :
  outcome_of (wait_for_s3_objects throttled "log-archive" 180 0) = Ret []
  /\ last (polls (events_of (wait_for_s3_objects throttled "log-archive" 180 0)))
     = Some (20, Fault "SlowDown").
Proof.
  apply (proj2 (proj2 (wait_for_s3_objects_result throttled "log-archive" 180 0))).
  vm_compute. right. right. left. reflexivity.
Defined.

(** On [healthy] calls take no time and sleeps are exact. *)
Lemma healthy_clock_exact : bounded_clock healthy 0 0.
Proof. split; intros t; cbn; lia. Defined.

(** On [sluggish] calls take three units and sleeps are exact; the bucket
    is empty before 1 and not after. *)
Lemma sluggish_clock : bounded_clock sluggish 3 0.
Proof. split; intros t; cbn; lia. Defined.

Lemma sluggish_nothing_before (u : Z) :
  0 <= u < 1 -> observes_nothing (listing_reply sluggish "log-archive" u) = true.
Proof.
  intros Hu. unfold listing_reply. cbn.
  destruct (Z.ltb_spec u 1) as [_|Hge]; [reflexivity|lia].
Defined.

Lemma sluggish_objects_from (u : Z) :
  1 <= u -> observes_objects (listing_reply sluggish "log-archive" u) = true.
Proof.
  intros Hu. unfold listing_reply. cbn.
  destruct (Z.ltb_spec u 1) as [Hlt|_]; [lia|reflexivity].
Defined.

(** C5 as stated fails on a clock whose calls take time.  On [sluggish] the
    listing asked at 0 is empty and every listing asked from 1 on holds the
    object, long before the deadline 180; the watcher entered at 0 polls at 0
    and at 13 and returns at 16, more than a poll interval of ten units
    after 1, and more than a poll interval and a call after it. *)
Lemma wait_for_s3_objects_late_on_slow_calls :
  let r := wait_for_s3_objects sluggish "log-archive" 180 0 in
  (forall u, 0 <= u < 1 ->
             observes_nothing (listing_reply sluggish "log-archive" u) = true)
  /\ (forall u, 1 <= u ->
                observes_objects (listing_reply sluggish "log-archive" u) = true)
  /\ map fst (polls (events_of r)) = [0; 13]
  /\ outcome_of r = Ret [delivered]
  /\ clock_of r = 16
  /\ ~ clock_of r <= 1 + 10
  /\ ~ clock_of r <= 1 + 10 + 3.
Proof.
  cbv zeta. split; [exact sluggish_nothing_before|].
  split; [exact sluggish_objects_from|].
  vm_compute. repeat split; intros H; apply H; reflexivity.
Qed.

(** Amended C5 on [sluggish]: the watcher entered at 0 with 180 units to
    wait, on a clock whose calls take three units, returns in [1, 17). *)
Lemma wait_for_s3_objects_deadline_sluggish :
  let r := wait_for_s3_objects sluggish "log-archive" 180 0 in
  1 <= clock_of r < 1 + 10 + Z.of_nat 0 + 2 * Z.of_nat 3
  /\ ((exists u resp,
         1 <= u < 0 + 180 /\ clock_of r = u + Z.of_nat (latency sluggish u)
         /\ listing_reply sluggish "log-archive" u = Ok resp /\ 0 < key_count resp
         /\ outcome_of r = found_outcome resp)
      \/ (outcome_of r = Ret [] /\ 0 + 180 <= clock_of r)).
Proof.
  apply (proj1 (proj2 (proj2
           (wait_for_s3_objects_deadline sluggish "log-archive" 180 0))) 3%nat 0%nat 1).
  - exact sluggish_clock.
  - lia.
  - exact sluggish_nothing_before.
  - exact sluggish_objects_from.
Defined.

End OnScenarios.

(** ** Further properties of the Trigger Generator *)

Section InvokeLambdaMore.

Context (env : Env) (function_name : string).

(** X5.  With a count of zero or less [invoke_lambda] submits nothing,
    takes no time and returns [True], having logged its entry line only. *)
Theorem invoke_lambda_nonpositive (n t : Z) :
  n <= 0 ->
  invoke_lambda env function_name n t
  = (Ret true, t,
     [EvLog INFO "Invoking Lambda function {} {} times..."
        [AStr function_name; AInt n]]).
Proof.
  intros Hn. unfold invoke_lambda, range.
  replace (Z.to_nat n) with 0%nat by lia. reflexivity.
Qed.

(** The submissions of the loop: answered ones, then at most one refused
    one, at which the loop stops. *)
Lemma invoke_loop_stops_at_fault (n : Z) (indices : list Z) (t : Z) :
  let r := invoke_loop env function_name n indices t in
  exists oks,
    Forall (fun a => answered a = true) oks
    /\ ((acknowledgments (events_of r) = oks /\ outcome_of r = Ret true
         /\ length oks = length indices)
        \/ (exists code,
              acknowledgments (events_of r) = oks ++ [Fault code]
              /\ outcome_of r = Ret false
              /\ (length oks < length indices)%nat)).
Proof.
  cbv zeta. revert t. induction indices as [|i rest IH]; intros t.
  - exists []. split; [constructor|]. left. repeat split.
  - destruct (lambda_invoke env t function_name "Event" (payload_of i t))
      as [resp|code] eqn:Hr.
    + rewrite (invoke_loop_answered env function_name n i rest t resp Hr).
      rewrite outcome_of_prefix, events_of_prefix.
      unfold acknowledgments. cbn [app omap list_omap acknowledgment].
      rewrite acknowledgment_ack_line.
      destruct (IH (t + Z.of_nat (latency env t) + 1
                    + Z.of_nat (oversleep env (t + Z.of_nat (latency env t)))))
        as (oks & Hoks & [(Hacks & Ho & Hlen)|(code & Hacks & Ho & Hlen)]).
      * exists (Ok resp :: oks). split; [constructor; [reflexivity|exact Hoks]|].
        left. unfold acknowledgments in Hacks. rewrite Hacks, Ho. cbn.
        repeat split. f_equal. exact Hlen.
      * exists (Ok resp :: oks). split; [constructor; [reflexivity|exact Hoks]|].
        right. exists code. unfold acknowledgments in Hacks. rewrite Hacks, Ho. cbn.
        repeat split. lia.
    + rewrite (invoke_loop_faulted env function_name n i rest t code Hr).
      exists []. split; [constructor|]. right. exists code. cbn.
      repeat split. lia.
Qed.

(** X6.  In every run of [invoke_lambda] the submissions are answered ones
    followed by at most one refused one: either all [n] submissions were
    answered and the result is [True], or the run stopped at the first
    submission refused with [ClientError], after fewer than [n] answered
    ones, and the result is [False]. *)
Theorem invoke_lambda_stops_at_fault (n t : Z) :
  let r := invoke_lambda env function_name n t in
  exists oks,
    Forall (fun a => answered a = true) oks
    /\ ((acknowledgments (events_of r) = oks /\ outcome_of r = Ret true
         /\ length oks = Z.to_nat n)
        \/ (exists code,
              acknowledgments (events_of r) = oks ++ [Fault code]
              /\ outcome_of r = Ret false
              /\ (length oks < Z.to_nat n)%nat)).
Proof.
  cbv zeta. unfold invoke_lambda. erewrite bind_Ret by reflexivity.
  rewrite outcome_of_prefix, events_of_prefix.
  change (acknowledgments
            ([EvLog INFO "Invoking Lambda function {} {} times..."
                [AStr function_name; AInt n]] ++ ?x))
    with (acknowledgments x).
  destruct (invoke_loop_stops_at_fault n (range n) t) as (oks & Hoks & Hcases).
  rewrite range_length in Hcases. exists oks. split; [exact Hoks|exact Hcases].
Qed.

Lemma invoke_loop_duration (L S : nat) (n : Z) (indices : list Z) (t : Z) :
  fault_free env function_name ->
  bounded_clock env L S ->
  let r := invoke_loop env function_name n indices t in
  t + Z.of_nat (length indices) <= clock_of r
  <= t + Z.of_nat (length indices) * (1 + Z.of_nat L + Z.of_nat S).
Proof.
  intros Hff [Hlat Hover]. cbv zeta. revert t.
  induction indices as [|i rest IH]; intros t.
  - cbn. lia.
  - destruct (Hff t (payload_of i t)) as [resp Hresp].
    rewrite (invoke_loop_answered env function_name n i rest t resp Hresp).
    rewrite clock_of_prefix.
    specialize (IH (t + Z.of_nat (latency env t) + 1
                    + Z.of_nat (oversleep env (t + Z.of_nat (latency env t))))).
    pose proof (Hlat t). pose proof (Hover (t + Z.of_nat (latency env t))).
    cbn [length]. nia.
Qed.

(** X7.  A run of [invoke_lambda] in which no submission is refused sleeps
    after every submission, the last one included: it takes at least [n]
    time units, and at most [n * (1 + L + S)] on a clock whose calls take at
    most [L] and whose sleeps overrun by at most [S]; exactly [n] when calls
    are instantaneous and sleeps exact. *)
Theorem invoke_lambda_duration (L S : nat) (n t : Z) :
  0 <= n ->
  fault_free env function_name ->
  bounded_clock env L S ->
  let r := invoke_lambda env function_name n t in
  t + n <= clock_of r <= t + n * (1 + Z.of_nat L + Z.of_nat S).
Proof.
  intros Hn Hff Hclock. cbv zeta. unfold invoke_lambda.
  erewrite bind_Ret by reflexivity. rewrite clock_of_prefix.
  pose proof (invoke_loop_duration L S n (range n) t Hff Hclock) as Hd.
  cbv zeta in Hd. rewrite range_length in Hd.
  replace (Z.of_nat (Z.to_nat n)) with n in Hd by lia. exact Hd.
Qed.

End InvokeLambdaMore.

(** ** Further properties of the Log Checker *)

Section CloudWatchLogsMore.

Context (env : Env) (log_group_name : string).

(** X8.  The log check is a single shot: it asks once for the five most
    recently active streams and, only when a stream is listed, once for the
    last ten events of the first of them; it makes no other call and never
    sleeps. *)
Theorem check_cloudwatch_logs_actions (t0 : Z) :
  actions (events_of (check_cloudwatch_logs env log_group_name t0))
  = EvDescribeLogStreams t0 log_group_name "LastEventTime" true 5
      (streams_reply env log_group_name t0)
    :: match streams_reply env log_group_name t0 with
       | Ok {| logStreams := Some (s :: _) |} =>
           [EvGetLogEvents (t0 + Z.of_nat (latency env t0)) log_group_name
              (logStreamName s) 10 (window_reply env log_group_name t0 s)]
       | _ => []
       end.
Proof.
  unfold streams_reply, window_reply, check_cloudwatch_logs,
    logs_client_describe_log_streams, logs_client_get_log_events.
  unfold_prog.
  destruct (describe_log_streams env t0 log_group_name "LastEventTime" true 5)
    as [[[[|s ss]|]]|code]; cbn; try reflexivity.
  destruct (get_log_events env (t0 + Z.of_nat (latency env t0)) log_group_name
              (logStreamName s) 10) as [[[[|e es]|]]|code]; reflexivity.
Qed.

End CloudWatchLogsMore.

(** ** Further properties of the Object-Store Watcher *)

Section WatcherMore.

Context (env : Env) (bucket_name : string).

(** X9.  With nothing to wait ([wait_time <= 0]) the watcher does not poll
    at all: it logs the time-out and returns the empty list at once. *)
Theorem wait_for_s3_objects_no_wait (wait_time t0 : Z) :
  wait_time <= 0 ->
  wait_for_s3_objects env bucket_name wait_time t0
  = (Ret [], t0, [entry_line bucket_name wait_time; timeout_line]).
Proof.
  intros Hw. rewrite wait_for_s3_objects_loop, wait_loop_step.
  destruct (Z_lt_dec t0 (t0 + wait_time)) as [Hlt|_]; [lia|reflexivity].
Qed.

(** Polls are at least one poll interval apart, so only so many fit
    before the deadline; and a run ends no later than one poll period after
    the deadline. *)
Lemma watch_polls_spaced (L S : nat) end_time t r :
  watch env bucket_name end_time t r ->
  spaced 10 (map fst (polls (events_of r)))
  /\ 10 * Z.of_nat (length (polls (events_of r))) <= Z.max 0 (end_time - t + 9)
  /\ (bounded_clock env L S ->
      clock_of r <= Z.max t (end_time + 9 + Z.of_nat L + Z.of_nat S)).
Proof.
  induction 1 as [t Ht|t resp Ht Hr Hk|t code Ht Hr
                  |t resp r Ht Hr Hk Hw (IHs & IHn & IHc)].
  - cbn. repeat split; lia.
  - cbn. repeat split; try lia. intros [Hlat _]. pose proof (Hlat t). lia.
  - cbn. repeat split; try lia. intros [Hlat _]. pose proof (Hlat t). lia.
  - pose proof (next_poll_later env t) as Hlater.
    pose proof (watch_polls_in_time env bucket_name _ _ _ Hw) as [Hin _].
    rewrite polls_again, clock_of_prefix. cbn [map fst length].
    split; [|split].
    + destruct (polls (events_of r)) as [|[u rp] more]; [exact I|].
      cbn [map fst spaced] in *. split; [|exact IHs].
      apply Forall_cons in Hin as [[[Hu _] _] _]. cbn in Hu. lia.
    + lia.
    + intros Hclock. specialize (IHc Hclock). destruct Hclock as [Hlat Hover].
      pose proof (Hlat t). pose proof (Hover (t + Z.of_nat (latency env t))).
      unfold next_poll in *. lia.
Qed.

(** X10.  The polls of a watch start at least ten time units apart, and at
    most [(wait_time + 9) / 10] of them are made (none when
    [wait_time <= 0]): the number of retries is bounded by the wait. *)
Theorem wait_for_s3_objects_polls_spaced (wait_time t0 : Z) :
  let ps := polls (events_of (wait_for_s3_objects env bucket_name wait_time t0)) in
  spaced 10 (map fst ps)
  /\ 10 * Z.of_nat (length ps) <= Z.max 0 (wait_time + 9).
Proof.
  cbv zeta. rewrite wait_for_s3_objects_polls.
  destruct (watch_polls_spaced 0 0 _ _ _
              (wait_loop_watch env bucket_name (t0 + wait_time) t0))
    as (Hs & Hn & _).
  split; [exact Hs|]. replace (wait_time + 9) with (t0 + wait_time - t0 + 9) by lia.
  exact Hn.
Qed.

(** X11.  Whatever the bucket answers, the watcher returns no later than
    one poll period after the deadline: before
    [t0 + wait_time + 10 + L + S] on a clock whose calls take at most [L] and
    whose sleeps overrun by at most [S], for a wait that is not negative. *)
Theorem wait_for_s3_objects_returns_by (L S : nat) (wait_time t0 : Z) :
  0 <= wait_time ->
  bounded_clock env L S ->
  let r := wait_for_s3_objects env bucket_name wait_time t0 in
  t0 <= clock_of r < t0 + wait_time + 10 + Z.of_nat L + Z.of_nat S.
Proof.
  intros Hw Hclock. cbv zeta.
  rewrite wait_for_s3_objects_loop, clock_of_prefix.
  pose proof (wait_loop_watch env bucket_name (t0 + wait_time) t0) as Hrun.
  destruct (watch_polls_spaced L S _ _ _ Hrun) as (_ & _ & Hby).
  destruct (watch_polls_in_time env bucket_name _ _ _ Hrun) as [_ Hfrom].
  specialize (Hby Hclock). lia.
Qed.

(** X12.  A listing without a ["KeyCount"] counts as empty, whatever its
    ["Contents"]: when every listing before the deadline is answered without
    one, the watcher times out with the empty list. *)
Theorem wait_for_s3_objects_missing_key_count (wait_time t0 : Z) :
  (forall u, t0 <= u < t0 + wait_time ->
             exists cs, listing_reply env bucket_name u
                        = Ok {| KeyCount := None; Contents := cs |}) ->
  let r := wait_for_s3_objects env bucket_name wait_time t0 in
  outcome_of r = Ret [] /\ t0 + wait_time <= clock_of r.
Proof.
  intros Hnone. cbv zeta.
  rewrite wait_for_s3_objects_loop, outcome_of_prefix, clock_of_prefix.
  apply (watch_times_out env bucket_name _ _ _
           (wait_loop_watch env bucket_name (t0 + wait_time) t0)).
  intros u Hu. destruct (Hnone u Hu) as [cs ->]. reflexivity.
Qed.

(** X13.  A poll that is answered with a positive key count and no
    ["Contents"] ends the watch with a [KeyError], which the watcher does not
    catch. *)
Theorem wait_for_s3_objects_missing_contents (wait_time t0 u : Z) resp :
  let r := wait_for_s3_objects env bucket_name wait_time t0 in
  In (u, Ok resp) (polls (events_of r)) ->
  0 < key_count resp ->
  Contents resp = None ->
  outcome_of r = Raise (KeyError "Contents").
Proof.
  cbv zeta. rewrite wait_for_s3_objects_polls.
  rewrite wait_for_s3_objects_loop, outcome_of_prefix.
  intros Hin Hk Hnone.
  destruct (watch_result env bucket_name _ _ _
              (wait_loop_watch env bucket_name (t0 + wait_time) t0))
    as (Hf & _ & _).
  destruct (Hf u resp Hin Hk) as [Ho _]. rewrite Ho.
  unfold found_outcome. rewrite Hnone. reflexivity.
Qed.

End WatcherMore.

(** ** Further properties of the Queue Checker *)

Section QueueCheckerMore.

Context (env : Env) (queue_url : string).

(** The release loop either releases every message, or stops at the first
    message whose visibility call raises; its events are visibility calls
    only. *)
Lemma release_messages_split (messages : list Message) (t : Z) :
  let r := release_messages env queue_url messages t in
  Forall (fun e => is_Some (visibility_change e)) (events_of r)
  /\ ((outcome_of r = Ret tt
       /\ visibility_changes (events_of r) = map released messages)
      \/ (exists done m rest code,
            messages = done ++ m :: rest
            /\ outcome_of r = Raise (ClientError code)
            /\ visibility_changes (events_of r)
               = map released done ++ [(ReceiptHandle m, 0, Fault code)])).
Proof.
  cbv zeta. revert t. induction messages as [|m rest IH]; intros t.
  - split; [constructor|]. left. split; reflexivity.
  - cbn [release_messages]. unfold sqs_client_change_message_visibility.
    destruct (change_message_visibility env t queue_url (ReceiptHandle m) 0)
      as [[]|code] eqn:Hc.
    + erewrite bind_Ret by (unfold call; rewrite Hc; reflexivity).
      rewrite events_of_prefix, outcome_of_prefix.
      destruct (IH (t + Z.of_nat (latency env t))) as (Hev & Hout).
      split; [constructor; [eexists; reflexivity|exact Hev]|].
      unfold visibility_changes in *. cbn [app omap list_omap visibility_change].
      destruct Hout as [[Ho Hvis]|(done & m' & rest' & code & Hsplit & Ho & Hvis)].
      * left. split; [exact Ho|]. cbn [map]. unfold released at 1. f_equal. exact Hvis.
      * right. exists (m :: done), m', rest', code. split; [rewrite Hsplit; reflexivity|].
        split; [exact Ho|]. cbn [map app]. unfold released at 1. f_equal. exact Hvis.
    + erewrite bind_Raise by (unfold call; rewrite Hc; reflexivity).
      split; [repeat constructor; eexists; reflexivity|].
      right. exists [], m, rest, code. repeat split.
Qed.

Lemma events_of_triple {A} (o : outcome A) t tr : events_of (o, t, tr) = tr.
Proof. reflexivity. Qed.

Lemma actions_app tr1 tr2 : actions (tr1 ++ tr2) = actions tr1 ++ actions tr2.
Proof. apply filter_app. Qed.

Lemma actions_visibility tr :
  Forall (fun e => is_Some (visibility_change e)) tr -> actions tr = tr.
Proof.
  induction 1 as [|e tr [c He] _ IH]; [reflexivity|].
  unfold actions in *. cbn [filter list_filter].
  destruct e; try discriminate. cbn. rewrite decide_True by exact I.
  f_equal. exact IH.
Qed.

(** X14.  When the receive faults or hands over no message, the checker
    returns [False] after that one call: it parses nothing and changes no
    visibility. *)
Theorem check_sqs_messages_nothing_received (t0 : Z) :
  received env queue_url t0 = [] ->
  let r := check_sqs_messages env queue_url t0 in
  outcome_of r = Ret false
  /\ actions (events_of r)
     = [EvReceiveMessage t0 queue_url 10 10 (receive_reply env queue_url t0)].
Proof.
  unfold received. intros Hnone. cbv zeta.
  destruct (receive_reply env queue_url t0) as [resp|code] eqn:Hrecv.
  - rewrite (check_sqs_messages_none env queue_url t0 resp Hrecv Hnone).
    split; reflexivity.
  - rewrite (check_sqs_messages_fault env queue_url t0 code Hrecv).
    split; reflexivity.
Qed.

(** X15.  When messages are received and the first body parses, the checker
    releases them in order; if a visibility call raises [ClientError], the
    checker stops there and returns [False]: the messages before the faulting
    one have been released, the ones after it are not touched. *)
Theorem check_sqs_messages_release_fault (t0 : Z) m0 rest j :
  received env queue_url t0 = m0 :: rest ->
  json_loads env (Body m0) = Some j ->
  let r := check_sqs_messages env queue_url t0 in
  (outcome_of r = Ret true
   /\ visibility_changes (events_of r) = map released (m0 :: rest))
  \/ (exists done m after code,
        m0 :: rest = done ++ m :: after
        /\ outcome_of r = Ret false
        /\ visibility_changes (events_of r)
           = map released done ++ [(ReceiptHandle m, 0, Fault code)]).
Proof.
  unfold received. intros Hmsgs Hjson. cbv zeta.
  destruct (receive_reply env queue_url t0) as [resp|code] eqn:Hrecv;
    [|discriminate].
  rewrite (check_sqs_messages_parsed env queue_url t0 resp m0 rest j
             Hrecv Hmsgs Hjson).
  destruct (release_messages_split (m0 :: rest) (t0 + Z.of_nat (latency env t0)))
    as (_ & [[Ho Hvis]|(done & m & after & code & Hsplit & Ho & Hvis)]); rewrite Ho.
  - left. split; [reflexivity|]. unfold events_of at 1. cbn [snd]. exact Hvis.
  - right. exists done, m, after, code. split; [exact Hsplit|].
    split; [reflexivity|]. unfold events_of at 1. cbn [snd].
    unfold visibility_changes in *. rewrite !omap_app. cbn. rewrite app_nil_r.
    exact Hvis.
Qed.

(** X16.  In every run the checker is a bystander of the queue: besides its
    single receive, for at most ten messages with a wait of at most ten, all
    it does is to change visibility, and only to zero, only for messages it
    has received, in the order received and at most once for each. *)
Theorem check_sqs_messages_touches_received_only (t0 : Z) :
  let r := check_sqs_messages env queue_url t0 in
  exists tried calls,
    tried `prefix_of` received env queue_url t0
    /\ map (fun c => c.1) (visibility_changes (events_of r)) = map reset_of tried
    /\ actions (events_of r)
       = EvReceiveMessage t0 queue_url 10 10 (receive_reply env queue_url t0)
         :: calls
    /\ Forall (fun e => is_Some (visibility_change e)) calls.
Proof.
  cbv zeta. unfold received.
  destruct (receive_reply env queue_url t0) as [resp|code] eqn:Hrecv.
  - destruct (default [] (Messages resp)) as [|m0 rest] eqn:Hmsgs.
    + rewrite (check_sqs_messages_none env queue_url t0 resp Hrecv Hmsgs).
      exists [], []. split; [apply prefix_nil|]. repeat split. constructor.
    + destruct (json_loads env (Body m0)) as [j|] eqn:Hjson.
      * rewrite (check_sqs_messages_parsed env queue_url t0 resp m0 rest j
                   Hrecv Hmsgs Hjson).
        destruct (release_messages_split (m0 :: rest)
                    (t0 + Z.of_nat (latency env t0)))
          as (Hev & [[Ho Hvis]|(done & m & after & code & Hsplit & Ho & Hvis)]);
          rewrite Ho; rewrite !events_of_triple.
        -- exists (m0 :: rest), (events_of (release_messages env queue_url
                                    (m0 :: rest) (t0 + Z.of_nat (latency env t0)))).
           split; [reflexivity|]. split; [|split; [|exact Hev]].
           ++ unfold visibility_changes in *. cbn [app omap list_omap visibility_change].
              rewrite Hvis, map_map. reflexivity.
           ++ rewrite actions_app, (actions_visibility _ Hev). reflexivity.
        -- exists (done ++ [m]), (events_of (release_messages env queue_url
                                    (m0 :: rest) (t0 + Z.of_nat (latency env t0)))).
           split; [rewrite Hsplit; apply prefix_app, prefix_cons, prefix_nil|].
           split; [|split; [|exact Hev]].
           ++ unfold visibility_changes in *. rewrite !omap_app.
              cbn [omap list_omap visibility_change]. rewrite app_nil_r, Hvis.
              rewrite !map_app, map_map. reflexivity.
           ++ rewrite !actions_app, (actions_visibility _ Hev).
              cbn. rewrite app_nil_r. reflexivity.
      * rewrite (check_sqs_messages_unparsed env queue_url t0 resp m0 rest
                   Hrecv Hmsgs Hjson).
        exists [], []. split; [apply prefix_nil|]. repeat split. constructor.
  - rewrite (check_sqs_messages_fault env queue_url t0 code Hrecv).
    exists [], []. split; [apply prefix_nil|]. repeat split. constructor.
Qed.

End QueueCheckerMore.

(** ** Further properties of the orchestrator *)

Section OrchestratorMore.

Context (env : Env) (args : Args).

(** X17.  A run of [main] that returns ends with the summary line, and the
    line agrees with the exit code: the success line at level INFO for 0,
    the failure line at level ERROR for 1; there is no other exit code. *)
Theorem main_ends_with_summary (t0 : Z) code :
  outcome_of (main env args t0) = Ret code ->
  (code = 0 \/ code = 1)
  /\ last (events_of (main env args t0))
     = Some (if code =? 0
             then EvLog INFO "All tests completed successfully!" []
             else EvLog ERROR "Some tests failed. Check the logs for details." []).
Proof.
  intros Hret.
  destruct (main_returned env args t0 code Hret)
    as (b1 & t1 & tr1 & b2 & t2 & tr2 & objects & t3 & tr3 & b4 & t4 & tr4
        & H1 & H2 & H3 & H4).
  pose proof (main_returns env args t0 _ _ _ _ _ _ _ _ _ _ _ _ H1 H2 H3 H4) as Hmain.
  rewrite Hmain in Hret |- *. injection Hret as <-.
  split; [unfold exit_code; destruct (_ && _); auto|].
  rewrite events_of_triple. rewrite !app_assoc. apply last_snoc.
Qed.

(** X18.  An exception that leaves [main] is one that left the object
    watcher or the queue checker, and the run ends right there: the events
    of [main] end with the events of the stage that raised, so that no
    summary line is logged. *)
Theorem main_ends_where_stage_raised (t0 : Z) e :
  outcome_of (main env args t0) = Raise e ->
  (exists t before,
     outcome_of (wait_for_s3_objects env (s3_bucket args) (wait_time args) t)
     = Raise e
     /\ events_of (main env args t0)
        = before
          ++ events_of (wait_for_s3_objects env (s3_bucket args) (wait_time args) t)
     /\ clock_of (main env args t0)
        = clock_of (wait_for_s3_objects env (s3_bucket args) (wait_time args) t))
  \/ (exists t before,
        outcome_of (check_sqs_messages env (sqs_queue_url args) t) = Raise e
        /\ events_of (main env args t0)
           = before ++ events_of (check_sqs_messages env (sqs_queue_url args) t)
        /\ clock_of (main env args t0)
           = clock_of (check_sqs_messages env (sqs_queue_url args) t)).
Proof.
  rewrite main_stages.
  destruct (invoke_lambda_returns env (lambda_function args) 5 t0) as [[b1 E1] _].
  destruct (invoke_lambda env (lambda_function args) 5 t0) as [[o1 t1] tr1].
  cbn in E1. subst o1.
  pose proof (check_cloudwatch_logs_outcome env (log_group args) (settled env t1)) as E2.
  destruct (check_cloudwatch_logs env (log_group args) (settled env t1))
    as [[o2 t2] tr2].
  cbn in E2. subst o2. cbv zeta.
  destruct (wait_for_s3_objects env (s3_bucket args) (wait_time args) t2)
    as [[[objects|e3] t3] tr3] eqn:H3.
  - destruct (check_sqs_messages env (sqs_queue_url args) t3)
      as [[[b4|e4] t4] tr4] eqn:H4; [discriminate|].
    intros [= <-]. right. exists t3. eexists. rewrite H4.
    split; [reflexivity|]. split; reflexivity.
  - intros [= <-]. left. exists t2. eexists. rewrite H3.
    split; [reflexivity|]. split; reflexivity.
Qed.

(** X19.  The exit status of the script is 0 or 1, and it is 0 exactly when
    every stage returned, the trigger stage and the log check with [True] and
    the object watch with a list that is not empty; the result of the queue
    check does not matter, but an exception that leaves it gives status 1. *)
Theorem exit_status_success (t0 : Z) :
  (exit_status env args t0 = 0 \/ exit_status env args t0 = 1)
  /\ (exit_status env args t0 = 0 <->
      exists t1 tr1 t2 tr2 objects t3 tr3 b4 t4 tr4,
        invoke_lambda env (lambda_function args) 5 t0 = (Ret true, t1, tr1)
        /\ check_cloudwatch_logs env (log_group args) (settled env t1)
           = (Ret true, t2, tr2)
        /\ wait_for_s3_objects env (s3_bucket args) (wait_time args) t2
           = (Ret objects, t3, tr3)
        /\ objects <> []
        /\ check_sqs_messages env (sqs_queue_url args) t3 = (Ret b4, t4, tr4)).
Proof.
  unfold exit_status. split.
  - destruct (main_outcome env args t0) as [(code & -> & Hc)|[-> | ->]]; auto.
  - split.
    + destruct (outcome_of (main env args t0)) as [code|e] eqn:Hret; [|discriminate].
      intros ->.
      destruct (main_returned env args t0 0 Hret)
        as (b1 & t1 & tr1 & b2 & t2 & tr2 & objects & t3 & tr3 & b4 & t4 & tr4
            & H1 & H2 & H3 & H4).
      pose proof (main_returns env args t0 _ _ _ _ _ _ _ _ _ _ _ _ H1 H2 H3 H4)
        as Hmain.
      rewrite Hmain in Hret. injection Hret as Hcode.
      apply exit_code_success in Hcode as (-> & -> & Hobjects).
      exists t1, tr1, t2, tr2, objects, t3, tr3, b4, t4, tr4. auto.
    + intros (t1 & tr1 & t2 & tr2 & objects & t3 & tr3 & b4 & t4 & tr4
              & H1 & H2 & H3 & Hobjects & H4).
      rewrite (main_returns env args t0 _ _ _ _ _ _ _ _ _ _ _ _ H1 H2 H3 H4).
      cbn. apply exit_code_success. auto.
Qed.

End OrchestratorMore.

(** ** How long a run takes *)

Section Duration.

Context (env : Env).

(** On a clock whose calls are instantaneous and whose sleeps are exact,
    only the sleeps take time. *)
Hypothesis exact : bounded_clock env 0 0.

Lemma clock_of_triple {A} (o : outcome A) t tr : clock_of (o, t, tr) = t.
Proof. reflexivity. Qed.

Lemma latency_exact t : latency env t = 0%nat.
Proof. destruct exact as [Hlat _]. pose proof (Hlat t). lia. Qed.

Lemma oversleep_exact t : oversleep env t = 0%nat.
Proof. destruct exact as [_ Hover]. pose proof (Hover t). lia. Qed.

Lemma invoke_loop_clock_exact function_name (n : Z) (indices : list Z) (t : Z) :
  t <= clock_of (invoke_loop env function_name n indices t)
  <= t + Z.of_nat (length indices).
Proof.
  revert t. induction indices as [|i rest IH]; intros t; [cbn; lia|].
  destruct (lambda_invoke env t function_name "Event" (payload_of i t))
    as [resp|code] eqn:Hr.
  - rewrite (invoke_loop_answered env function_name n i rest t resp Hr).
    rewrite clock_of_prefix, !latency_exact, oversleep_exact.
    specialize (IH (t + Z.of_nat 0 + 1 + Z.of_nat 0)). cbn [length]. lia.
  - rewrite (invoke_loop_faulted env function_name n i rest t code Hr).
    cbn. rewrite latency_exact. lia.
Qed.

Lemma invoke_lambda_clock_exact function_name (n t : Z) :
  t <= clock_of (invoke_lambda env function_name n t) <= t + Z.max 0 n.
Proof.
  unfold invoke_lambda. erewrite bind_Ret by reflexivity. rewrite clock_of_prefix.
  pose proof (invoke_loop_clock_exact function_name n (range n) t) as Hc.
  rewrite range_length in Hc. lia.
Qed.

Lemma check_cloudwatch_logs_clock_exact log_group_name (t : Z) :
  clock_of (check_cloudwatch_logs env log_group_name t) = t.
Proof.
  unfold check_cloudwatch_logs, logs_client_describe_log_streams,
    logs_client_get_log_events.
  unfold_prog. rewrite latency_exact.
  destruct (describe_log_streams env t log_group_name "LastEventTime" true 5)
    as [[[[|s ss]|]]|code]; cbn; try lia.
  rewrite latency_exact.
  destruct (get_log_events env (t + Z.of_nat 0) log_group_name
              (logStreamName s) 10) as [[[[|e es]|]]|code]; cbn; lia.
Qed.

Lemma release_messages_clock_exact queue_url (messages : list Message) (t : Z) :
  clock_of (release_messages env queue_url messages t) = t.
Proof.
  revert t. induction messages as [|m rest IH]; intros t; [reflexivity|].
  cbn [release_messages]. unfold sqs_client_change_message_visibility.
  destruct (change_message_visibility env t queue_url (ReceiptHandle m) 0)
    as [[]|code] eqn:Hc.
  - erewrite bind_Ret by (unfold call; rewrite Hc; reflexivity).
    rewrite clock_of_prefix, IH, latency_exact. lia.
  - erewrite bind_Raise by (unfold call; rewrite Hc; reflexivity).
    cbn. rewrite latency_exact. lia.
Qed.

Lemma check_sqs_messages_clock_exact queue_url (t : Z) :
  clock_of (check_sqs_messages env queue_url t) = t.
Proof.
  destruct (receive_reply env queue_url t) as [resp|code] eqn:Hrecv.
  - destruct (default [] (Messages resp)) as [|m0 rest] eqn:Hmsgs.
    + rewrite (check_sqs_messages_none env queue_url t resp Hrecv Hmsgs).
      cbn. rewrite latency_exact. lia.
    + destruct (json_loads env (Body m0)) as [j|] eqn:Hjson.
      * rewrite (check_sqs_messages_parsed env queue_url t resp m0 rest j
                   Hrecv Hmsgs Hjson).
        pose proof (release_messages_clock_exact queue_url (m0 :: rest)
                      (t + Z.of_nat (latency env t))) as Hrel.
        rewrite latency_exact in Hrel |- *.
        destruct (outcome_of _) as [[]|[code| |key]];
          rewrite clock_of_triple, Hrel; lia.
      * rewrite (check_sqs_messages_unparsed env queue_url t resp m0 rest
                   Hrecv Hmsgs Hjson).
        cbn. rewrite latency_exact. lia.
  - rewrite (check_sqs_messages_fault env queue_url t code Hrecv).
    cbn. rewrite latency_exact. lia.
Qed.

(** X20.  On a clock whose calls are instantaneous and whose sleeps are
    exact, a run of [main] with a wait that is not negative takes at least
    the settle delay of ten time units and less than [wait_time + 25]: at
    most five for the trigger stage, ten to settle, and less than
    [wait_time + 10] for the watch; this holds whatever the services answer
    and however the run ends. *)
Theorem main_duration (args : Args) (t0 : Z) :
  0 <= wait_time args ->
  t0 + 10 <= clock_of (main env args t0) < t0 + wait_time args + 25.
Proof.
  intros Hwait. rewrite main_stages.
  pose proof (invoke_lambda_clock_exact (lambda_function args) 5 t0) as C1.
  destruct (invoke_lambda_returns env (lambda_function args) 5 t0) as [[b1 E1] _].
  destruct (invoke_lambda env (lambda_function args) 5 t0) as [[o1 t1] tr1].
  cbn in E1, C1. subst o1.
  pose proof (check_cloudwatch_logs_clock_exact (log_group args) (settled env t1)) as C2.
  pose proof (check_cloudwatch_logs_outcome env (log_group args) (settled env t1)) as E2.
  destruct (check_cloudwatch_logs env (log_group args) (settled env t1))
    as [[o2 t2] tr2].
  cbn in E2, C2. subst o2. cbv zeta.
  unfold settled in C2. rewrite oversleep_exact in C2.
  pose proof (wait_loop_watch env (s3_bucket args) (t2 + wait_time args) t2) as Hrun.
  destruct (watch_polls_spaced env (s3_bucket args) 0 0 _ _ _ Hrun) as (_ & _ & Hby).
  destruct (watch_polls_in_time env (s3_bucket args) _ _ _ Hrun) as [_ Hfrom].
  specialize (Hby exact).
  pose proof (wait_for_s3_objects_loop env (s3_bucket args) (wait_time args) t2) as E3.
  apply (f_equal clock_of) in E3. rewrite clock_of_prefix in E3.
  rewrite <- E3 in Hby, Hfrom.
  destruct (wait_for_s3_objects env (s3_bucket args) (wait_time args) t2)
    as [[[objects|e3] t3] tr3]; cbn in Hby, Hfrom; [|cbn; lia].
  pose proof (check_sqs_messages_clock_exact (sqs_queue_url args) t3) as C4.
  destruct (check_sqs_messages env (sqs_queue_url args) t3)
    as [[[b4|e4] t4] tr4]; cbn in C4 |- *; lia.
Qed.

End Duration.

(** ** The further properties on the scenarios *)

Section OnScenariosMore.

Lemma healthy_fault_free : fault_free healthy "log-generator".
Proof. intros t p. exists {| StatusCode := 202 |}. reflexivity. Defined.

(** X5 with a count of zero. *)
Lemma invoke_lambda_nonpositive_zero :
  invoke_lambda healthy "log-generator" 0 7
  = (Ret true, 7,
     [EvLog INFO "Invoking Lambda function {} {} times..."
        [AStr "log-generator"; AInt 0]]).
Proof. apply (invoke_lambda_nonpositive healthy "log-generator" 0 7). lia. Defined.

(** X7 on [healthy]: five submissions take five time units. *)
Lemma invoke_lambda_duration_healthy :
  0 + 5 <= clock_of (invoke_lambda healthy "log-generator" 5 0)
  <= 0 + 5 * (1 + Z.of_nat 0 + Z.of_nat 0).
Proof.
  apply (invoke_lambda_duration healthy "log-generator" 0 0 5 0).
  - lia.
  - exact healthy_fault_free.
  - exact healthy_clock_exact.
Defined.

(** X9 with a wait of zero. *)
Lemma wait_for_s3_objects_no_wait_zero :
  wait_for_s3_objects healthy "log-archive" 0 15
  = (Ret [], 15, [entry_line "log-archive" 0; timeout_line]).
Proof. apply (wait_for_s3_objects_no_wait healthy "log-archive" 0 15). lia. Defined.

(** X11 on [healthy]. *)
Lemma wait_for_s3_objects_returns_by_healthy :
  15 <= clock_of (wait_for_s3_objects healthy "log-archive" 180 15)
  < 15 + 180 + 10 + Z.of_nat 0 + Z.of_nat 0.
Proof.
  apply (wait_for_s3_objects_returns_by healthy "log-archive" 0 0 180 15).
  - lia.
  - exact healthy_clock_exact.
Defined.

(** X12 on [grudging], whose listings hold an object and no key count. *)
Lemma wait_for_s3_objects_missing_key_count_grudging :
  outcome_of (wait_for_s3_objects grudging "log-archive" 30 0) = Ret []
  /\ 0 + 30 <= clock_of (wait_for_s3_objects grudging "log-archive" 30 0).
Proof.
  apply (wait_for_s3_objects_missing_key_count grudging "log-archive" 30 0).
  intros u _. exists (Some [delivered]). reflexivity.
Defined.

(** X13 on [miscounting]. *)
Lemma wait_for_s3_objects_missing_contents_miscounting :
  outcome_of (wait_for_s3_objects miscounting "log-archive" 180 0)
  = Raise (KeyError "Contents").
Proof.
  apply (wait_for_s3_objects_missing_contents miscounting "log-archive" 180 0 0
           {| KeyCount := Some 1; Contents := None |}).
  - vm_compute. left. reflexivity.
  - reflexivity.
  - reflexivity.
Defined.

(** X14 on a queue that holds nothing. *)
Lemma check_sqs_messages_nothing_received_staged :
  let env := staged true true true false in
  let q := sqs_queue_url (cli 180) in
  outcome_of (check_sqs_messages env q 0) = Ret false
  /\ actions (events_of (check_sqs_messages env q 0))
     = [EvReceiveMessage 0 q 10 10 (receive_reply env q 0)].
Proof.
  apply (check_sqs_messages_nothing_received (staged true true true false)
           (sqs_queue_url (cli 180)) 0).
  reflexivity.
Defined.

(** X15 on [grudging]: the second of three messages cannot be released. *)
Lemma check_sqs_messages_release_fault_grudging :
  let q := sqs_queue_url (cli 180) in
  let r := check_sqs_messages grudging q 0 in
  let ms := [notice "1" "h1" "{}"; notice "2" "h2" "{}"; notice "3" "h3" "{}"] in
  (outcome_of r = Ret true /\ visibility_changes (events_of r) = map released ms)
  \/ (exists done m after code,
        ms = done ++ m :: after
        /\ outcome_of r = Ret false
        /\ visibility_changes (events_of r)
           = map released done ++ [(ReceiptHandle m, 0, Fault code)]).
Proof.
  apply (check_sqs_messages_release_fault grudging (sqs_queue_url (cli 180)) 0
           (notice "1" "h1" "{}") [notice "2" "h2" "{}"; notice "3" "h3" "{}"]
           (JObj [])); reflexivity.
Defined.

(** X17 on a run in which the log group has no stream. *)
Lemma main_ends_with_summary_staged :
  (1 = 0 \/ 1 = 1)
  /\ last (events_of (main (staged true false true true) (cli 20) 0))
     = Some (if 1 =? 0
             then EvLog INFO "All tests completed successfully!" []
             else EvLog ERROR "Some tests failed. Check the logs for details." []).
Proof.
  apply (main_ends_with_summary (staged true false true true) (cli 20) 0 1).
  vm_compute. reflexivity.
Defined.

(** X18 on [unparsable]: the run ends in the queue checker. *)
Lemma main_ends_where_stage_raised_unparsable :
  let env := unparsable in
  let args := cli 180 in
  (exists t before,
     outcome_of (wait_for_s3_objects env (s3_bucket args) (wait_time args) t)
     = Raise JSONDecodeError
     /\ events_of (main env args 0)
        = before
          ++ events_of (wait_for_s3_objects env (s3_bucket args) (wait_time args) t)
     /\ clock_of (main env args 0)
        = clock_of (wait_for_s3_objects env (s3_bucket args) (wait_time args) t))
  \/ (exists t before,
        outcome_of (check_sqs_messages env (sqs_queue_url args) t)
        = Raise JSONDecodeError
        /\ events_of (main env args 0)
           = before ++ events_of (check_sqs_messages env (sqs_queue_url args) t)
        /\ clock_of (main env args 0)
           = clock_of (check_sqs_messages env (sqs_queue_url args) t)).
Proof.
  apply (main_ends_where_stage_raised unparsable (cli 180) 0 JSONDecodeError).
  vm_compute. reflexivity.
Defined.

(** X20 on [healthy]. *)
Lemma main_duration_healthy :
  0 + 10 <= clock_of (main healthy (cli 180) 0) < 0 + wait_time (cli 180) + 25.
Proof.
  apply (main_duration healthy healthy_clock_exact (cli 180) 0). cbn. lia.
Defined.

(** On [grudging] the third submission is refused: two answered
    submissions, then the refusal, and nothing after it. *)
Example invoke_lambda_on_grudging :
  let r := invoke_lambda grudging "log-generator" 5 0 in
  outcome_of r = Ret false
  /\ acknowledgments (events_of r)
     = [Ok {| StatusCode := 202 |}; Ok {| StatusCode := 202 |};
        Fault "TooManyRequestsException"]
  /\ clock_of r = 2.
Proof. vm_compute. repeat split. Qed.

(** On [grudging] the first message is released, the second is not, and
    the third is not touched. *)
Example check_sqs_messages_on_grudging :
  let r := check_sqs_messages grudging (sqs_queue_url (cli 180)) 0 in
  outcome_of r = Ret false
  /\ visibility_changes (events_of r)
     = [("h1", 0, Ok tt); ("h2", 0, Fault "ReceiptHandleIsInvalid")].
Proof. vm_compute. repeat split. Qed.

End OnScenariosMore.

End TestInfrastructureProofs.
